(** * Magic-link booking backend: a shallow embedding and its properties

    The development follows the TypeScript sources:
    - [MagicLink]   : src/utils/magicLink.ts (expiration policy);
    - [Validation]  : src/middleware/validation.ts (request validators);
    - [Column]      : the column types of prisma/migrations (the values a
                      column takes);
    - [Prisma]      : the table operations the routes call on the store;
    - [BookingRoutes]  : src/routes/booking.ts (mounted at /api/booking);
    - [RedirectRoutes] : src/routes/redirect.ts (mounted at /appt).

    Dates are milliseconds since the epoch ([Z]); every reading of the
    wall clock a handler makes is an explicit argument of its embedding,
    and so is every identifier the store or the handler draws afresh.
    A string is a sequence of characters. *)

From Stdlib Require Import ZArith String Ascii List DecimalString SpecFloat.
From stdpp Require Import base strings list gmap sorting.

Local Open Scope string_scope.
Local Open Scope Z_scope.

(** ** Rendering of integers inside template literals *)

(** [`${n}`] for an integral number below 1e21 is its decimal numeral. *)
Definition template (n : Z) : string := NilZero.string_of_int (Z.to_int n).

(** ** src/utils/magicLink.ts *)

Module MagicLink.

(** [new Date(Date.now() + 60 * 60 * 1000)] *)
Definition calculateMagicLinkExpiration (now : Z) : Z :=
  now + 60 * 60 * 1000.

(** [!expirationDate] holds of [null] only: a Date object is truthy. *)
Definition isMagicLinkExpired (expirationDate : option Z) (now : Z) : bool :=
  match expirationDate with
  | None => false
  | Some t => now >? t
  end.

(** The number returned by [getTimeUntilExpiration]: a count of
    milliseconds or the value [Infinity]. *)
Inductive Millis :=
| Infinity
| Finite (ms : Z).

Definition getTimeUntilExpiration (expirationDate : option Z) (now : Z) : Millis :=
  match expirationDate with
  | None => Infinity
  | Some t =>
      let timeRemaining := t - now in
      Finite (Z.max 0 timeRemaining)
  end.

Definition formatTimeRemaining (expirationDate : option Z) (now : Z) : string :=
  match expirationDate with
  | None => "No expiration"
  | Some _ =>
      match getTimeUntilExpiration expirationDate now with
      | Infinity =>
          (* not reached: [Math.floor(Infinity / 60000)] is [Infinity]
             and [Infinity % 60] is [NaN] *)
          "Infinityh NaNm"
      | Finite timeRemaining =>
          if timeRemaining =? 0 then "Expired"
          else
            let minutes := timeRemaining / (1000 * 60) in
            let hours := minutes / 60 in
            if hours >? 0 then
              let remainingMinutes := Z.rem minutes 60 in
              template hours +:+ "h " +:+ template remainingMinutes +:+ "m"
            else
              template minutes +:+ "m"
      end
  end.

End MagicLink.

(** ** JavaScript values as the validators see them *)

(** A field of a parsed JSON body. Numbers are IEEE 754 doubles. An array or
    an object is kept as what [String(...)] makes of it, the only thing a
    validator can observe of one besides its type and its truthiness. *)
Inductive JsVal :=
| JUndefined
| JNull
| JBool (b : bool)
| JNum (x : spec_float)
| JStr (s : string)
| JObject (image : string).

Definition js_zero : spec_float := S754_zero false.

Definition truthy (v : JsVal) : bool :=
  match v with
  | JUndefined | JNull => false
  | JBool b => b
  | JNum (S754_zero _) | JNum S754_nan => false
  | JNum _ => true
  | JStr s => negb (s =? "")%string
  | JObject _ => true
  end.

Definition typeof (v : JsVal) : string :=
  match v with
  | JUndefined => "undefined"
  | JNull | JObject _ => "object"
  | JBool _ => "boolean"
  | JNum _ => "number"
  | JStr _ => "string"
  end.

(** [v === s] for a string [s]. *)
Definition strict_eq_string (v : JsVal) (s : string) : bool :=
  match v with
  | JStr t => (t =? s)%string
  | _ => false
  end.

(** [x || d] on an optional string: [undefined] and the empty string are
    falsy. *)
Definition or_else (x : option string) (d : option string) : option string :=
  match x with
  | Some s => if (s =? "")%string then d else Some s
  | None => d
  end.

Definition or_default (x : option string) (d : string) : string :=
  match or_else x None with
  | Some s => s
  | None => d
  end.

Fixpoint all_chars (p : ascii -> bool) (s : string) : bool :=
  match s with
  | EmptyString => true
  | String c r => p c && all_chars p r
  end.

Definition is_upper (c : ascii) : bool := (("A" <=? c) && (c <=? "Z"))%char.
Definition is_lower (c : ascii) : bool := (("a" <=? c) && (c <=? "z"))%char.
Definition is_digit (c : ascii) : bool := (("0" <=? c) && (c <=? "9"))%char.

(** ** Enumerations of src/types/index.ts and prisma/schema.prisma *)

Module AppointmentType.
Inductive t := CONSULTATION | TUTORIAL | ASSESSMENT | GROUP_SESSION | WORKSHOP.
End AppointmentType.

Module BookingStatus.
Inductive t := PENDING_CONFIRMATION | CONFIRMED | CANCELLED | COMPLETED.

Definition to_string (s : t) : string :=
    match s with
    | PENDING_CONFIRMATION => "PENDING_CONFIRMATION"
    | CONFIRMED => "CONFIRMED"
    | CANCELLED => "CANCELLED"
    | COMPLETED => "COMPLETED"
    end.
End BookingStatus.

Module PaymentStatus.
Inductive t := PENDING | COMPLETED | FAILED | REFUNDED | CANCELLED.

Definition to_string (s : t) : string :=
    match s with
    | PENDING => "PENDING"
    | COMPLETED => "COMPLETED"
    | FAILED => "FAILED"
    | REFUNDED => "REFUNDED"
    | CANCELLED => "CANCELLED"
    end.

  (** [Object.values(PaymentStatus)] *)
Definition values : list string :=
    map to_string [PENDING; COMPLETED; FAILED; REFUNDED; CANCELLED].
End PaymentStatus.

(** ** The two tables of prisma/schema.prisma *)

Module Booking.
Record t := mk {
    id : string;
    bookingId : string;
    magicLinkId : string;
    userName : string;
    userPhone : string;
    appointmentType : AppointmentType.t;
    appointmentDate : Z;
    bookingDetails : string;
    status : BookingStatus.t;
    paymentStatus : PaymentStatus.t;
    paymentId : option string;
    paymentAmount : option spec_float;
    paymentCurrency : option string;
    createdAt : Z;
    confirmedAt : option Z;
    paymentUpdatedAt : option Z;
    lastAccessedAt : option Z;
    magicLinkExpiresAt : option Z;
    accessCount : Z
  }.
End Booking.

Module BookingAnalytics.
Record t := mk {
    id : string;
    bookingId : string;
    eventType : string;
    userAgent : option string;
    ipAddress : option string;
    timestamp : Z
  }.
End BookingAnalytics.

Record Store := mkStore {
  bookings : list Booking.t;
  analytics : list BookingAnalytics.t
}.

(** ** Requests and responses *)

Record Env := mkEnv {
  FRONTEND_BASE_URL : option string;
  MAGIC_LINK_BASE_URL : option string
}.

(** [headers] is keyed by lower-case header name, as [req.get] looks
    names up. *)
Record Request := mkRequest {
  params : gmap string string;
  headers : gmap string string;
  ip : option string;
  protocol : string
}.

Definition with_params (ps : gmap string string) (req : Request) : Request :=
  mkRequest ps (headers req) (ip req) (protocol req).

(** [!x] on a route parameter. *)
Definition missing (x : option string) : bool :=
  match or_else x None with
  | Some _ => false
  | None => true
  end.

Record BookingView := mkBookingView {
  v_bookingId : string;
  v_uuid : string;
  v_userName : string;
  v_userPhone : string;
  v_appointmentType : AppointmentType.t;
  v_appointmentDate : Z;
  v_status : BookingStatus.t;
  v_paymentStatus : PaymentStatus.t;
  v_createdAt : Z;
  v_confirmedAt : option Z;
  v_bookingDetails : string;
  v_magicLinkId : string;
  v_isExpired : option bool
}.

Record PreviewView := mkPreviewView {
  p_uuid : string;
  p_bookingId : string;
  p_userName : string;
  p_appointmentType : AppointmentType.t;
  p_status : BookingStatus.t;
  p_paymentStatus : PaymentStatus.t;
  p_redirectUrl : string;
  p_magicLink : string;
  p_createdAt : Z
}.

Record EventView := mkEventView {
  e_eventType : string;
  e_timestamp : Z;
  e_userAgent : option string;
  e_ipAddress : option string
}.

Record AnalyticsView := mkAnalyticsView {
  a_bookingId : string;
  a_accessCount : Z;
  a_lastAccessedAt : option Z;
  a_analytics : list EventView
}.

Inductive Body :=
| Failure (error message : string)
| Invalid (error message : string) (details : list string)
| Tracked (message : string)
| Created (bookingId uuid magicLinkId magicLink : string)
    (status : BookingStatus.t) (message : string)
| Confirmed (bookingId uuid : string) (status : BookingStatus.t) (message : string)
| PaymentUpdated (bookingId uuid : string) (paymentStatus : PaymentStatus.t)
    (message : string)
| Details (data : BookingView)
| Preview (data : PreviewView)
| Analytics (data : AnalyticsView).

Inductive Response :=
| Json (code : nat) (body : Body)
| Redirect (code : nat) (url : string).

(** What a middleware does with a request: answer it, or call [next()]. *)
Inductive Outcome :=
| Respond (r : Response)
| Next.

(** ** src/middleware/validation.ts

    The validators that guard the routes embedded below. *)

Module Validation.

(** A destructured field of [req.body]; an absent key reads [undefined]. *)
Definition field (body : gmap string JsVal) (k : string) : JsVal :=
  default JUndefined (body !! k).

Definition when (c : bool) (msg : string) : list string :=
  if c then [msg] else [].

(** [validPaymentStatuses.includes(v)] *)
Definition includes (l : list string) (v : JsVal) : bool :=
  existsb (strict_eq_string v) l.

(** [/^[A-Z]{3}$/] on a string. *)
Definition currencyPattern (s : string) : bool :=
  (String.length s =? 3)%nat && all_chars is_upper s.

(** [/^[A-Z]{3}$/.test(v)]: the value is converted to a string first. The
    images of booleans and of numbers ("true", "NaN", numerals) are never
    three capital letters. *)
Definition test_currency (v : JsVal) : bool :=
  match v with
  | JStr s | JObject s => currencyPattern s
  | _ => false
  end.

(** [if (amount !== undefined) { if (typeof amount !== "number" || amount < 0)
    errors.push(...) }] *)
Definition amountErrors (amount : JsVal) : list string :=
  match amount with
  | JUndefined => []
  | JNum x => when (SFltb x js_zero) "amount must be a positive number"
  | _ => ["amount must be a positive number"]
  end.

Definition paymentStatusErrors (body : gmap string JsVal) : list string :=
  let paymentStatus := field body "paymentStatus" in
  let paymentId := field body "paymentId" in
  let amount := field body "amount" in
  let currency := field body "currency" in
  when (negb (truthy paymentStatus) || negb (typeof paymentStatus =? "string")%string)
    "paymentStatus is required and must be a string"
  ++ when (truthy paymentStatus && negb (includes PaymentStatus.values paymentStatus))
       ("paymentStatus must be one of: " +:+ String.concat ", " PaymentStatus.values)
  ++ when (truthy paymentId && negb (typeof paymentId =? "string")%string)
       "paymentId must be a string"
  ++ amountErrors amount
  ++ when (truthy currency && negb (typeof currency =? "string")%string)
       "currency must be a string"
  ++ when (truthy currency && negb (test_currency currency))
       "currency must be a valid 3-letter ISO 4217 currency code (e.g., USD, EUR)"
  ++ when (strict_eq_string paymentStatus "COMPLETED" && negb (truthy paymentId))
       "paymentId is required when payment status is completed"
  ++ when (strict_eq_string paymentStatus "COMPLETED"
           && match amount with JUndefined => true | _ => false end)
       "amount is required when payment status is completed"
  ++ when (match amount with JUndefined => false | _ => true end
           && negb (truthy currency))
       "currency is required when amount is provided".

Definition validatePaymentStatusUpdate (body : gmap string JsVal) : Outcome :=
  let errors := paymentStatusErrors body in
  if (0 <? length errors)%nat then
    Respond (Json 400 (Invalid "Validation failed"
                         "Please correct the following errors:" errors))
  else Next.

Definition nanoid_char (c : ascii) : bool :=
  is_upper c || is_lower c || is_digit c || (c =? "_")%char || (c =? "-")%char.

(** [/^[A-Za-z0-9_-]{10,21}$/] *)
Definition nanoidPattern (s : string) : bool :=
  (10 <=? String.length s)%nat && (String.length s <=? 21)%nat
  && all_chars nanoid_char s.

(** The validator destructures [nanoid] from [req.params]. *)
Definition validateNanoId (req : Request) : Outcome :=
  let nanoid := params req !! "nanoid" in
  if missing nanoid || negb (from_option nanoidPattern false nanoid) then
    Respond (Json 400 (Failure "Invalid magic link ID"
                         "The provided magic link ID is not in a valid format"))
  else Next.

Definition is_hex (c : ascii) : bool :=
  is_digit c || (("a" <=? c) && (c <=? "f"))%char || (("A" <=? c) && (c <=? "F"))%char.

(** A string against a pattern that is one character class per position,
    anchored at both ends. *)
Fixpoint matches (classes : list (ascii -> bool)) (s : string) : bool :=
  match classes, s with
  | [], EmptyString => true
  | p :: classes, String c r => p c && matches classes r
  | _, _ => false
  end.

Definition is_char (d : ascii) (c : ascii) : bool := (c =? d)%char.

(** The class [[89ab]] under the flag [i]. *)
Definition is_variant (c : ascii) : bool :=
  is_char "8" c || is_char "9" c || is_char "a" c || is_char "b" c
  || is_char "A" c || is_char "B" c.

(** [/^[0-9a-f]{8}-[0-9a-f]{4}-4[0-9a-f]{3}-[89ab][0-9a-f]{3}-[0-9a-f]{12}$/i] *)
Definition uuidClasses : list (ascii -> bool) :=
  (repeat is_hex 8 ++ [is_char "-"] ++ repeat is_hex 4 ++ [is_char "-"; is_char "4"]
   ++ repeat is_hex 3 ++ [is_char "-"; is_variant] ++ repeat is_hex 3
   ++ [is_char "-"] ++ repeat is_hex 12)%list.

Definition uuidPattern (s : string) : bool := matches uuidClasses s.

(** The validator destructures [uuid] from [req.params]. *)
Definition validateUUID (req : Request) : Outcome :=
  let uuid := params req !! "uuid" in
  if missing uuid || negb (from_option uuidPattern false uuid) then
    Respond (Json 400 (Failure "Invalid UUID"
                         "The provided UUID is not in a valid format"))
  else Next.

End Validation.

(** ** The column types of prisma/migrations (PostgreSQL)

    A statement that writes a value its column does not take raises an
    error, and so does a query that compares a [UUID] column with a text
    that is no UUID. *)

Module Column.

(** [INTEGER]: a signed integer of 32 bits. *)
Definition int4 (n : Z) : bool := (-2147483648 <=? n) && (n <=? 2147483647).

(** A text value has no NUL character. *)
Definition text (s : string) : bool :=
  all_chars (fun c => negb (Ascii.eqb c Ascii.zero)) s.

(** [VARCHAR(n)]: a text of at most [n] characters. *)
Definition varchar (n : nat) (s : string) : bool :=
  (String.length s <=? n)%nat && text s.

(** [DECIMAL(10,2)]: the number is kept rounded to two decimals, and the
    rounded number must be below [10^8] in absolute value. The double
    nearest to [99999999.995] lies above it, so a double fits iff its
    absolute value is below that double. *)
Definition decimal_bound : spec_float := S754_finite false 6710886399664456 (-26).

Definition decimal_10_2 (x : spec_float) : bool := SFltb (SFabs x) decimal_bound.

(** [UUID]. The client reads the text of an id before it queries: 32
    hexadecimal digits, the same in groups of 8-4-4-4-12 joined by hyphens,
    that form in braces, or that form after [urn:uuid:]; digits in either
    case. Two texts name the same UUID iff they have the same digits, and
    the store returns a UUID as its hyphenated text in lower case. *)
Definition lower (c : ascii) : ascii :=
  if (("A" <=? c) && (c <=? "F"))%char then ascii_of_nat (nat_of_ascii c + 32)
  else c.

Fixpoint digits (s : string) : string :=
  match s with
  | EmptyString => EmptyString
  | String c r =>
      if Validation.is_hex c then String (lower c) (digits r) else digits r
  end.

Definition hyphenate (d : string) : string :=
  substring 0 8 d +:+ "-" +:+ substring 8 4 d +:+ "-" +:+ substring 12 4 d
  +:+ "-" +:+ substring 16 4 d +:+ "-" +:+ substring 20 12 d.

Definition simple : list (ascii -> bool) := repeat Validation.is_hex 32.

Definition hyphenated : list (ascii -> bool) :=
  (repeat Validation.is_hex 8 ++ [Validation.is_char "-"]
   ++ repeat Validation.is_hex 4 ++ [Validation.is_char "-"]
   ++ repeat Validation.is_hex 4 ++ [Validation.is_char "-"]
   ++ repeat Validation.is_hex 4 ++ [Validation.is_char "-"]
   ++ repeat Validation.is_hex 12)%list.

(** The standard text of a UUID: the hyphenated form. *)
Definition standard (s : string) : bool := Validation.matches hyphenated s.

Definition braced : list (ascii -> bool) :=
  ([Validation.is_char "{"] ++ hyphenated ++ [Validation.is_char "}"])%list.

Definition urn : list (ascii -> bool) :=
  (map Validation.is_char (list_ascii_of_string "urn:uuid:") ++ hyphenated)%list.

(** The UUID a text is read as, in the store's text of it; [None] when the
    text is no UUID. *)
Definition uuid (s : string) : option string :=
  if Validation.matches simple s || Validation.matches hyphenated s
     || Validation.matches braced s
  then Some (hyphenate (digits s))
  else if Validation.matches urn s
  then Some (hyphenate (digits (substring 9 36 s)))
  else None.

End Column.

(** ** The store operations the routes call (Prisma client) *)

Module Prisma.

(** [prisma.booking.findUnique({ where: { key: k } })] *)
Definition findUnique (key : Booking.t -> string) (k : string) (s : Store)
  : option Booking.t :=
  find (fun b => (key b =? k)%string) (bookings s).

(** The rows after [update({ where: { key: k }, data })], with the updated
    row; [None] when no row has the key. *)
Fixpoint update_rows (key : Booking.t -> string) (k : string)
    (data : Booking.t -> Booking.t) (rows : list Booking.t)
  : option (Booking.t * list Booking.t) :=
  match rows with
  | [] => None
  | b :: rest =>
      if (key b =? k)%string then Some (data b, data b :: rest)
      else match update_rows key k data rest with
           | Some (b', rest') => Some (b', b :: rest')
           | None => None
           end
  end.

(** What a write comes to: the row written and the store after it, the
    error "Record to update not found", or another error of the store. *)
Inductive Write :=
| Written (b : Booking.t) (s : Store)
| RecordNotFound
| Rejected.

(** [prisma.booking.update({ where: { key: k }, data })] for a key compared
    as text. [fits] tells whether the values that [data] writes fit their
    columns, given the row as written. *)
Definition update (key : Booking.t -> string) (k : string)
    (fits : Booking.t -> bool) (data : Booking.t -> Booking.t) (s : Store)
  : Write :=
  match update_rows key k data (bookings s) with
  | Some (b', rows) =>
      if fits b' then Written b' (mkStore rows (analytics s)) else Rejected
  | None => RecordNotFound
  end.

(** [prisma.booking.update({ where: { id }, data })] for an id that comes
    with the request: it is read as a UUID first. *)
Definition update_by_id (id : string) (fits : Booking.t -> bool)
    (data : Booking.t -> Booking.t) (s : Store) : Write :=
  match Column.uuid id with
  | Some u => update Booking.id u fits data s
  | None => Rejected
  end.

(** [prisma.booking.create]: the primary key and the two unique indexes
    ([bookingId], [magicLinkId]) reject a duplicate, and the four
    [VARCHAR] columns a text that does not fit; [None] is either error. *)
Definition create (row : Booking.t) (s : Store) : option Store :=
  if existsb (fun b => (Booking.id b =? Booking.id row)%string
                       || (Booking.bookingId b =? Booking.bookingId row)%string
                       || (Booking.magicLinkId b =? Booking.magicLinkId row)%string)
       (bookings s)
  then None
  else if Column.varchar 255 (Booking.bookingId row)
          && Column.varchar 50 (Booking.magicLinkId row)
          && Column.varchar 255 (Booking.userName row)
          && Column.varchar 50 (Booking.userPhone row)
  then Some (mkStore (bookings s ++ [row]) (analytics s))
  else None.

(** [prisma.bookingAnalytics.create]: appends a row; its [id] and
    [timestamp] are the store's defaults ([uuid()], [now()]). [None] when
    the event type does not fit its [VARCHAR(100)] column. The syntax of
    the [INET] column is not checked here. *)
Definition createAnalytics (row : BookingAnalytics.t) (s : Store) : option Store :=
  if Column.varchar 100 (BookingAnalytics.eventType row)
  then Some (mkStore (bookings s) (analytics s ++ [row]))
  else None.

(** [orderBy: { timestamp: 'desc' }] *)
Definition newer (a b : BookingAnalytics.t) : Prop :=
  BookingAnalytics.timestamp b <= BookingAnalytics.timestamp a.

#[global] Instance newer_dec a b : Decision (newer a b).
Proof. unfold newer. apply _. Defined.

(** [include: { analytics: { orderBy: { timestamp: 'desc' }, take: 50 } }]
    for the booking with primary key [uuid]. *)
Definition includeAnalytics (uuid : string) (s : Store) : list BookingAnalytics.t :=
  take 50 (merge_sort newer
             (filter (fun e => BookingAnalytics.bookingId e = uuid) (analytics s))).

End Prisma.

(** ** The [data] of the three [prisma.booking.update] calls *)

(** [{ accessCount: { increment: 1 }, lastAccessedAt: new Date() }]; the
    incremented count has to fit the [INTEGER] column. *)
Definition access_fits (b' : Booking.t) : bool :=
  Column.int4 (Booking.accessCount b').

Definition data_access (now : Z) (b : Booking.t) : Booking.t :=
  Booking.mk (Booking.id b) (Booking.bookingId b) (Booking.magicLinkId b)
    (Booking.userName b) (Booking.userPhone b) (Booking.appointmentType b)
    (Booking.appointmentDate b) (Booking.bookingDetails b) (Booking.status b)
    (Booking.paymentStatus b) (Booking.paymentId b) (Booking.paymentAmount b)
    (Booking.paymentCurrency b) (Booking.createdAt b) (Booking.confirmedAt b)
    (Booking.paymentUpdatedAt b) (Some now) (Booking.magicLinkExpiresAt b)
    (Booking.accessCount b + 1).

(** [{ status: BookingStatus.CONFIRMED, confirmedAt: new Date() }] *)
Definition data_confirm (now : Z) (b : Booking.t) : Booking.t :=
  Booking.mk (Booking.id b) (Booking.bookingId b) (Booking.magicLinkId b)
    (Booking.userName b) (Booking.userPhone b) (Booking.appointmentType b)
    (Booking.appointmentDate b) (Booking.bookingDetails b) BookingStatus.CONFIRMED
    (Booking.paymentStatus b) (Booking.paymentId b) (Booking.paymentAmount b)
    (Booking.paymentCurrency b) (Booking.createdAt b) (Some now)
    (Booking.paymentUpdatedAt b) (Booking.lastAccessedAt b)
    (Booking.magicLinkExpiresAt b) (Booking.accessCount b).

(** A field given as [undefined] in [data] is left as it is. *)
Definition assign {A} (new : option A) (old : option A) : option A :=
  match new with
  | Some x => Some x
  | None => old
  end.

(** [{ paymentStatus, paymentId, paymentAmount: amount,
       paymentCurrency: currency, paymentUpdatedAt: new Date() }]; the
    fields that are given have to fit [VARCHAR(255)], [DECIMAL(10,2)] and
    [VARCHAR(3)]. The row carries the amount as the number it was given. *)
Definition payment_fits (paymentId : option string) (amount : option spec_float)
    (currency : option string) : bool :=
  from_option (Column.varchar 255) true paymentId
  && from_option Column.decimal_10_2 true amount
  && from_option (Column.varchar 3) true currency.

Definition data_payment (paymentStatus : PaymentStatus.t) (paymentId : option string)
    (amount : option spec_float) (currency : option string) (now : Z)
    (b : Booking.t) : Booking.t :=
  Booking.mk (Booking.id b) (Booking.bookingId b) (Booking.magicLinkId b)
    (Booking.userName b) (Booking.userPhone b) (Booking.appointmentType b)
    (Booking.appointmentDate b) (Booking.bookingDetails b) (Booking.status b)
    paymentStatus (assign paymentId (Booking.paymentId b))
    (assign amount (Booking.paymentAmount b))
    (assign currency (Booking.paymentCurrency b)) (Booking.createdAt b)
    (Booking.confirmedAt b) (Some now) (Booking.lastAccessedAt b)
    (Booking.magicLinkExpiresAt b) (Booking.accessCount b).

(** Express runs the middleware of a route, then its handler. *)
Definition route (mw : Request -> Outcome)
    (handler : Request -> Store -> Response * Store)
    (req : Request) (s : Store) : Response * Store :=
  match mw req with
  | Respond r => (r, s)
  | Next => handler req s
  end.

(** ** src/routes/booking.ts, mounted at /api/booking

    Request bodies have the types the handlers declare
    ([CreateBookingRequest], [UpdatePaymentRequest]); the date string of a
    creation request is given as the instant [new Date(...)] reads from it. *)

Module BookingRoutes.

Record CreateBookingRequest := mkCreate {
  userPhone : string;
  userName : string;
  appointmentType : AppointmentType.t;
  appointmentDate : Z;
  bookingDetails : option string
}.

Record UpdatePaymentRequest := mkUpdatePayment {
  paymentStatus : PaymentStatus.t;
  paymentId : option string;
  amount : option spec_float;
  currency : option string
}.

Definition internal (message : string) : Response :=
  Json 500 (Failure "Internal server error" message).

(** POST /create. [uuid] is the primary key the store draws, [nano] the
    result of [nanoid(12)], [rnd] the random suffix of the booking id;
    [nowId], [nowExp], [nowRow] are the clock readings of [Date.now()],
    of [calculateMagicLinkExpiration()] and of the [createdAt] default. *)
Definition create (env : Env) (body : CreateBookingRequest)
    (uuid nano rnd : string) (nowId nowExp nowRow : Z) (s : Store)
  : Response * Store :=
  let bookingId := "booking_" +:+ template nowId +:+ "_" +:+ rnd in
  let magicLinkId := nano in
  let magicLinkExpiresAt := MagicLink.calculateMagicLinkExpiration nowExp in
  let booking :=
    Booking.mk uuid bookingId magicLinkId (userName body) (userPhone body)
      (appointmentType body) (appointmentDate body)
      (default "{}" (bookingDetails body))
      BookingStatus.PENDING_CONFIRMATION PaymentStatus.PENDING
      None None None nowRow None None None (Some magicLinkExpiresAt) 0 in
  match Prisma.create booking s with
  | Some s' =>
      let magicLink :=
        or_default (MAGIC_LINK_BASE_URL env) "https://tbook.me"
        +:+ "/appt/" +:+ magicLinkId in
      (Json 201 (Created (Booking.bookingId booking) (Booking.id booking)
                   (Booking.magicLinkId booking) magicLink (Booking.status booking)
                   "Booking created successfully. Confirmation link sent to user."),
       s')
  | None =>
      (internal "An unexpected error occurred while creating the booking.", s)
  end.

(** POST /confirm/:uuid *)
Definition confirm (now : Z) (req : Request) (s : Store) : Response * Store :=
  match or_else (params req !! "uuid") None with
  | None => (Json 400 (Failure "Missing UUID" "UUID parameter is required."), s)
  | Some uuid =>
      match Prisma.update_by_id uuid (fun _ => true) (data_confirm now) s with
      | Prisma.Written booking s' =>
          (Json 200 (Confirmed (Booking.bookingId booking) (Booking.id booking)
                       (Booking.status booking)
                       "Appointment confirmed successfully."), s')
      | Prisma.RecordNotFound =>
          (Json 404 (Failure "Booking not found"
                       "Unable to find booking with the provided UUID."), s)
      | Prisma.Rejected =>
          (internal "An unexpected error occurred while confirming the booking.", s)
      end
  end.

(** PUT /payment/:uuid (the handler behind [validatePaymentStatusUpdate]) *)
Definition payment (body : UpdatePaymentRequest) (now : Z) (req : Request)
    (s : Store) : Response * Store :=
  match or_else (params req !! "uuid") None with
  | None => (Json 400 (Failure "Missing UUID" "UUID parameter is required."), s)
  | Some uuid =>
      match Prisma.update_by_id uuid
              (fun _ => payment_fits (paymentId body) (amount body) (currency body))
              (data_payment (paymentStatus body) (paymentId body) (amount body)
                 (currency body) now) s with
      | Prisma.Written booking s' =>
          (Json 200 (PaymentUpdated (Booking.bookingId booking) (Booking.id booking)
                       (Booking.paymentStatus booking)
                       "Payment status updated successfully."), s')
      | Prisma.RecordNotFound =>
          (Json 404 (Failure "Booking not found"
                       "Unable to find booking with the provided UUID."), s)
      | Prisma.Rejected =>
          (internal "An unexpected error occurred while updating payment status.", s)
      end
  end.

Definition view (b : Booking.t) (isExpired : option bool) : BookingView :=
  mkBookingView (Booking.bookingId b) (Booking.id b) (Booking.userName b)
    (Booking.userPhone b) (Booking.appointmentType b) (Booking.appointmentDate b)
    (Booking.status b) (Booking.paymentStatus b) (Booking.createdAt b)
    (Booking.confirmedAt b) (Booking.bookingDetails b) (Booking.magicLinkId b)
    isExpired.

(** [booking.magicLinkExpiresAt && new Date() > booking.magicLinkExpiresAt] *)
Definition past_expiry (b : Booking.t) (now : Z) : bool :=
  match Booking.magicLinkExpiresAt b with
  | Some t => now >? t
  | None => false
  end.

(** GET /:id *)
Definition getById (now : Z) (req : Request) (s : Store) : Response * Store :=
  match or_else (params req !! "id") None with
  | None => (Json 400 (Failure "Missing UUID" "UUID parameter is required."), s)
  | Some id =>
      match Prisma.findUnique Booking.id id s with
      | None =>
          (Json 404 (Failure "Booking not found"
                       "Unable to find booking with the provided UUID."), s)
      | Some booking =>
          (Json 200 (Details (view booking (Some (past_expiry booking now)))), s)
      end
  end.

(** GET /magic/:magicLinkId. [nowCheck] is the clock at the expiry test,
    [nowTouch] the clock written to [lastAccessedAt]. The update names the
    row by [booking.id], the store's own text of the id. *)
Definition getByMagicLink (nowCheck nowTouch : Z) (req : Request) (s : Store)
  : Response * Store :=
  match or_else (params req !! "magicLinkId") None with
  | None =>
      (Json 400 (Failure "Missing magic link ID"
                   "Magic link ID parameter is required."), s)
  | Some magicLinkId =>
      match Prisma.findUnique Booking.magicLinkId magicLinkId s with
      | None =>
          (Json 404 (Failure "Booking not found"
                       "Unable to find booking with the provided magic link ID."), s)
      | Some booking =>
          if past_expiry booking nowCheck then
            (Json 410 (Failure "Magic link expired"
                         "This magic link has expired and is no longer valid."), s)
          else
            match Prisma.update Booking.id (Booking.id booking) access_fits
                    (data_access nowTouch) s with
            | Prisma.Written _ s' => (Json 200 (Details (view booking None)), s')
            | _ =>
                (internal "An unexpected error occurred while retrieving the booking.",
                 s)
            end
      end
  end.

(** The routes as the router binds their path parameter. *)
Definition POST_confirm (uuid : string) (now : Z) (req : Request) :=
  confirm now (with_params {[ "uuid" := uuid ]} req).

Definition PUT_payment (uuid : string) (body : UpdatePaymentRequest) (now : Z)
    (req : Request) :=
  payment body now (with_params {[ "uuid" := uuid ]} req).

Definition GET_id (id : string) (now : Z) (req : Request) :=
  getById now (with_params {[ "id" := id ]} req).

Definition GET_magic (magicLinkId : string) (nowCheck nowTouch : Z) (req : Request) :=
  getByMagicLink nowCheck nowTouch (with_params {[ "magicLinkId" := magicLinkId ]} req).

End BookingRoutes.

(** ** src/routes/redirect.ts, mounted at /appt *)

Module RedirectRoutes.

Record TrackEventRequest := mkTrack {
  event : option string;
  userAgent : option string;
  ipAddress : option string
}.

Definition frontend (env : Env) : string :=
  or_default (FRONTEND_BASE_URL env) "https://usetextbook.com".

(** The status names have no character that [URLSearchParams] escapes. *)
Definition redirectUrl (env : Env) (b : Booking.t) : string :=
  let frontendUrl := frontend env +:+ "/booking/" +:+ Booking.bookingId b in
  let urlParams :=
    "status=" +:+ BookingStatus.to_string (Booking.status b)
    +:+ "&payment_status=" +:+ PaymentStatus.to_string (Booking.paymentStatus b)
    +:+ "&source=magic_link" in
  frontendUrl +:+ "?" +:+ urlParams.

Definition missing_id : Response :=
  Json 400 (Failure "Missing magic link ID" "Magic link ID parameter is required.").

Definition not_found : Response :=
  Json 404 (Failure "Booking not found"
              "Unable to find booking with the provided magic link ID.").

(** GET /:magicLinkId. [nowTouch] is the clock written to
    [lastAccessedAt]; [evId] and [nowEvent] are the store's defaults for
    the analytics row. The handler wraps the analytics insert in
    [try]/[catch] and only logs a failure; an error of the update lands in
    the outer [catch]. *)
Definition redirect (env : Env) (nowTouch nowEvent : Z) (evId : string)
    (req : Request) (s : Store) : Response * Store :=
  match or_else (params req !! "magicLinkId") None with
  | None => (missing_id, s)
  | Some magicLinkId =>
      match Prisma.findUnique Booking.magicLinkId magicLinkId s with
      | None =>
          (Redirect 302 (frontend env +:+ "/booking/error?reason=not_found"), s)
      | Some booking =>
          match Prisma.update Booking.magicLinkId magicLinkId access_fits
                  (data_access nowTouch) s with
          | Prisma.Written _ s1 =>
              let s2 :=
                default s1
                  (Prisma.createAnalytics
                     (BookingAnalytics.mk evId (Booking.id booking) "magic_link_click"
                        (or_else (headers req !! "user-agent") None)
                        (or_else (ip req) None) nowEvent) s1) in
              (Redirect 302 (redirectUrl env booking), s2)
          | _ =>
              (Redirect 302 (frontend env +:+ "/booking/error?reason=server_error"), s)
          end
      end
  end.

(** GET /:magicLinkId/preview (the handler behind [validateNanoId]) *)
Definition preview (env : Env) (req : Request) (s : Store) : Response * Store :=
  match or_else (params req !! "magicLinkId") None with
  | None => (missing_id, s)
  | Some magicLinkId =>
      match Prisma.findUnique Booking.magicLinkId magicLinkId s with
      | None => (not_found, s)
      | Some booking =>
          let magicLink :=
            protocol req +:+ "://" +:+ default "undefined" (headers req !! "host")
            +:+ "/appt/" +:+ magicLinkId in
          (Json 200 (Preview (mkPreviewView (Booking.id booking)
                                (Booking.bookingId booking) (Booking.userName booking)
                                (Booking.appointmentType booking)
                                (Booking.status booking)
                                (Booking.paymentStatus booking)
                                (redirectUrl env booking) magicLink
                                (Booking.createdAt booking))), s)
      end
  end.

(** POST /:magicLinkId/track (the handler behind [validateNanoId]) *)
Definition track (body : TrackEventRequest) (nowEvent : Z) (evId : string)
    (req : Request) (s : Store) : Response * Store :=
  match or_else (params req !! "magicLinkId") None with
  | None => (missing_id, s)
  | Some magicLinkId =>
      match Prisma.findUnique Booking.magicLinkId magicLinkId s with
      | None => (not_found, s)
      | Some booking =>
          match Prisma.createAnalytics
                  (BookingAnalytics.mk evId (Booking.id booking)
                     (or_default (event body) "interaction")
                     (or_else (userAgent body)
                        (or_else (headers req !! "user-agent") None))
                     (or_else (ipAddress body) (or_else (ip req) None))
                     nowEvent) s with
          | Some s' => (Json 200 (Tracked "Event tracked successfully."), s')
          | None =>
              (Json 500 (Failure "Internal server error"
                           "An unexpected error occurred while tracking the event."),
               s)
          end
      end
  end.

Definition event_view (e : BookingAnalytics.t) : EventView :=
  mkEventView (BookingAnalytics.eventType e) (BookingAnalytics.timestamp e)
    (BookingAnalytics.userAgent e) (BookingAnalytics.ipAddress e).

(** GET /:magicLinkId/analytics (the handler behind [validateNanoId]) *)
Definition analyticsOf (req : Request) (s : Store) : Response * Store :=
  match or_else (params req !! "magicLinkId") None with
  | None => (missing_id, s)
  | Some magicLinkId =>
      match Prisma.findUnique Booking.magicLinkId magicLinkId s with
      | None => (not_found, s)
      | Some booking =>
          (Json 200 (Analytics (mkAnalyticsView (Booking.bookingId booking)
                                  (Booking.accessCount booking)
                                  (Booking.lastAccessedAt booking)
                                  (map event_view
                                     (Prisma.includeAnalytics (Booking.id booking) s)))),
           s)
      end
  end.

(** The routes as the router declares them: the path parameter is bound
    to the name [magicLinkId], and three of the four routes run
    [validateNanoId] before their handler. *)
Definition bind (magicLinkId : string) (req : Request) : Request :=
  with_params {[ "magicLinkId" := magicLinkId ]} req.

Definition GET_appt (env : Env) (magicLinkId : string) (nowTouch nowEvent : Z)
    (evId : string) (req : Request) (s : Store) : Response * Store :=
  redirect env nowTouch nowEvent evId (bind magicLinkId req) s.

Definition GET_preview (env : Env) (magicLinkId : string) (req : Request)
    (s : Store) : Response * Store :=
  route Validation.validateNanoId (preview env) (bind magicLinkId req) s.

Definition POST_track (magicLinkId : string) (body : TrackEventRequest)
    (nowEvent : Z) (evId : string) (req : Request) (s : Store) : Response * Store :=
  route Validation.validateNanoId (track body nowEvent evId) (bind magicLinkId req) s.

Definition GET_analytics (magicLinkId : string) (req : Request) (s : Store)
  : Response * Store :=
  route Validation.validateNanoId analyticsOf (bind magicLinkId req) s.

End RedirectRoutes.

(** ** The operations of the core, uniformly *)

(** One constructor per handler of the two routers, with the body, clock
    readings and fresh identifiers it consumes. *)
Inductive Handler :=
| HCreate (env : Env) (body : BookingRoutes.CreateBookingRequest)
    (uuid nano rnd : string) (nowId nowExp nowRow : Z)
| HConfirm (now : Z)
| HPayment (body : BookingRoutes.UpdatePaymentRequest) (now : Z)
| HGetById (now : Z)
| HGetByMagicLink (nowCheck nowTouch : Z)
| HRedirect (env : Env) (nowTouch nowEvent : Z) (evId : string)
| HPreview (env : Env)
| HTrack (body : RedirectRoutes.TrackEventRequest) (nowEvent : Z) (evId : string)
| HAnalytics.

Definition handle (h : Handler) (req : Request) (s : Store) : Response * Store :=
  match h with
  | HCreate env body uuid nano rnd nowId nowExp nowRow =>
      BookingRoutes.create env body uuid nano rnd nowId nowExp nowRow s
  | HConfirm now => BookingRoutes.confirm now req s
  | HPayment body now => BookingRoutes.payment body now req s
  | HGetById now => BookingRoutes.getById now req s
  | HGetByMagicLink nowCheck nowTouch =>
      BookingRoutes.getByMagicLink nowCheck nowTouch req s
  | HRedirect env nowTouch nowEvent evId =>
      RedirectRoutes.redirect env nowTouch nowEvent evId req s
  | HPreview env => RedirectRoutes.preview env req s
  | HTrack body nowEvent evId => RedirectRoutes.track body nowEvent evId req s
  | HAnalytics => RedirectRoutes.analyticsOf req s
  end.

(** A request served by a route: a middleware, a handler, the request. *)
Definition Step : Type := (Request -> Outcome) * Handler * Request.

Definition serve (st : Step) (s : Store) : Response * Store :=
  let '(mw, h, req) := st in route mw (handle h) req s.

Definition run (steps : list Step) (s : Store) : Store :=
  fold_left (fun acc st => (serve st acc).2) steps s.

(** What may happen to a stored booking: its keys and its expiration stay,
    its access count does not go down. *)
Definition row_evolves (b b' : Booking.t) : Prop :=
  Booking.id b' = Booking.id b
  /\ Booking.magicLinkId b' = Booking.magicLinkId b
  /\ Booking.magicLinkExpiresAt b' = Booking.magicLinkExpiresAt b
  /\ Booking.accessCount b <= Booking.accessCount b'.

(** Every row is still there, in place, evolved; rows may have been added. *)
Definition evolves (s s' : Store) : Prop :=
  exists rows added,
    bookings s' = (rows ++ added)%list /\ Forall2 row_evolves (bookings s) rows.

(** The primary key of the bookings table. *)
Definition pk_unique (s : Store) : Prop :=
  NoDup (map Booking.id (bookings s)).

(** ** Resolutions of one token, in sequence *)

(** The two resolver paths that count accesses. *)
Inductive Resolution :=
| ViaRedirect (env : Env) (nowTouch nowEvent : Z) (evId : string) (req : Request)
| ViaMagicApi (nowCheck nowTouch : Z) (req : Request).

Definition resolve (magicLinkId : string) (r : Resolution) (s : Store)
  : Response * Store :=
  match r with
  | ViaRedirect env nowTouch nowEvent evId req =>
      RedirectRoutes.GET_appt env magicLinkId nowTouch nowEvent evId req s
  | ViaMagicApi nowCheck nowTouch req =>
      BookingRoutes.GET_magic magicLinkId nowCheck nowTouch req s
  end.

Definition resolve_all (magicLinkId : string) (rs : list Resolution) (s : Store) : Store :=
  fold_left (fun acc r => (resolve magicLinkId r acc).2) rs s.

(** The first reading of the clock a resolution makes: the redirect reads
    it once, for [lastAccessedAt]; the API reads it for its expiry test. *)
Definition clock_of (r : Resolution) : Z :=
  match r with
  | ViaRedirect _ nowTouch _ _ _ => nowTouch
  | ViaMagicApi nowCheck _ _ => nowCheck
  end.

(** A resolution of a link that has not expired when it is served. *)
Definition admitted (b : Booking.t) (r : Resolution) : Prop :=
  BookingRoutes.past_expiry b (clock_of r) = false.

(** The response of a resolution that succeeded, for the booking as it was
    found. *)
Definition success_of (b : Booking.t) (r : Resolution) : Response :=
  match r with
  | ViaRedirect env _ _ _ _ => Redirect 302 (RedirectRoutes.redirectUrl env b)
  | ViaMagicApi _ _ _ => Json 200 (Details (BookingRoutes.view b None))
  end.

(** The instant a resolution writes to [lastAccessedAt]. *)
Definition touch_of (r : Resolution) : Z :=
  match r with
  | ViaRedirect _ nowTouch _ _ _ => nowTouch
  | ViaMagicApi _ nowTouch _ => nowTouch
  end.

(** The analytics rows a successful resolution of booking [b] appends. *)
Definition events_of (b : Booking.t) (r : Resolution) : list BookingAnalytics.t :=
  match r with
  | ViaRedirect _ _ nowEvent evId req =>
      [BookingAnalytics.mk evId (Booking.id b) "magic_link_click"
         (or_else (headers req !! "user-agent") None) (or_else (ip req) None)
         nowEvent]
  | ViaMagicApi _ _ _ => []
  end.

(** ** A store to run the routes on *)

Definition env0 : Env := mkEnv None None.

Definition req0 : Request :=
  mkRequest ∅ {[ "user-agent" := "curl/8.0"; "host" := "tbook.me" ]}
    (Some "203.0.113.7") "https".

(** A booking created at instant [1000000], so expiring at [4600000]. *)
Definition booking0 : Booking.t :=
  Booking.mk "7b0c1c1e-5c1a-4a6e-9f43-0d2f6f1f2a10" "booking_1000000_k3x9q2m1z"
    "V1StGXR8_Z5j" "Test User" "+1234567890" AppointmentType.CONSULTATION
    87400000 "{}" BookingStatus.PENDING_CONFIRMATION PaymentStatus.PENDING
    None None None 1000000 None None None
    (Some (MagicLink.calculateMagicLinkExpiration 1000000)) 0.

Definition event0 (id : string) (ts : Z) : BookingAnalytics.t :=
  BookingAnalytics.mk id (Booking.id booking0) "booking_view" None None ts.

Definition store0 : Store :=
  mkStore [booking0] [event0 "e-1" 1500000; event0 "e-2" 1700000].

(** ** Auxiliary functions of the proofs *)

Fixpoint last_char (s : string) : option ascii :=
  match s with
  | EmptyString => None
  | String c r =>
      match last_char r with
      | Some d => Some d
      | None => Some c
      end
  end.

Definition amount_message : string := "amount must be a positive number".

(** The rows of the bookings table after [update({ where: { key: k },
    data })], whether or not a row was found. *)
Definition rows_after (key : Booking.t -> string) (k : string)
    (data : Booking.t -> Booking.t) (rows : list Booking.t) : list Booking.t :=
  match Prisma.update_rows key k data rows with
  | Some (_, rows') => rows'
  | None => rows
  end.

(** The primary key and the two unique indexes of the bookings table. *)
Definition keys_unique (s : Store) : Prop :=
  NoDup (map Booking.id (bookings s))
  /\ NoDup (map Booking.bookingId (bookings s))
  /\ NoDup (map Booking.magicLinkId (bookings s)).

(** What a request may change of a stored booking: the identifying and
    descriptive fields stay; the status stays or becomes CONFIRMED; a
    timestamp that is set stays set; the access count does not go down. *)
Definition row_frame (b b' : Booking.t) : Prop :=
  Booking.id b' = Booking.id b
  /\ Booking.bookingId b' = Booking.bookingId b
  /\ Booking.magicLinkId b' = Booking.magicLinkId b
  /\ Booking.userName b' = Booking.userName b
  /\ Booking.userPhone b' = Booking.userPhone b
  /\ Booking.appointmentType b' = Booking.appointmentType b
  /\ Booking.appointmentDate b' = Booking.appointmentDate b
  /\ Booking.bookingDetails b' = Booking.bookingDetails b
  /\ Booking.createdAt b' = Booking.createdAt b
  /\ Booking.magicLinkExpiresAt b' = Booking.magicLinkExpiresAt b
  /\ (Booking.status b' = Booking.status b
      \/ Booking.status b' = BookingStatus.CONFIRMED)
  /\ (Booking.confirmedAt b <> None -> Booking.confirmedAt b' <> None)
  /\ (Booking.paymentUpdatedAt b <> None -> Booking.paymentUpdatedAt b' <> None)
  /\ (Booking.lastAccessedAt b <> None -> Booking.lastAccessedAt b' <> None)
  /\ Booking.accessCount b <= Booking.accessCount b'.

(** Whether the link has not expired when the resolution is served. *)
Definition admittedb (b : Booking.t) (r : Resolution) : bool :=
  negb (BookingRoutes.past_expiry b (clock_of r)).

Definition via_api (r : Resolution) : bool :=
  match r with
  | ViaRedirect _ _ _ _ _ => false
  | ViaMagicApi _ _ _ => true
  end.

(** [v !== undefined] *)
Definition defined (v : JsVal) : bool :=
  match v with
  | JUndefined => false
  | _ => true
  end.

(** Every stored row is still there, in place, related by [R] to what it
    was; rows may have been added. *)
Definition rows_related (R : Booking.t -> Booking.t -> Prop) (s s' : Store) : Prop :=
  exists rows added,
    bookings s' = (rows ++ added)%list /\ Forall2 R (bookings s) rows.

(** A booking with its access count set to [n]. *)
Definition data_count (n : Z) (b : Booking.t) : Booking.t :=
  Booking.mk (Booking.id b) (Booking.bookingId b) (Booking.magicLinkId b)
    (Booking.userName b) (Booking.userPhone b) (Booking.appointmentType b)
    (Booking.appointmentDate b) (Booking.bookingDetails b) (Booking.status b)
    (Booking.paymentStatus b) (Booking.paymentId b) (Booking.paymentAmount b)
    (Booking.paymentCurrency b) (Booking.createdAt b) (Booking.confirmedAt b)
    (Booking.paymentUpdatedAt b) (Booking.lastAccessedAt b)
    (Booking.magicLinkExpiresAt b) n.

(** The row that POST /create hands to [prisma.booking.create]. *)
Definition created_row (body : BookingRoutes.CreateBookingRequest)
    (uuid nano rnd : string) (nowId nowExp nowRow : Z) : Booking.t :=
  Booking.mk uuid ("booking_" +:+ template nowId +:+ "_" +:+ rnd) nano
    (BookingRoutes.userName body) (BookingRoutes.userPhone body)
    (BookingRoutes.appointmentType body) (BookingRoutes.appointmentDate body)
    (default "{}" (BookingRoutes.bookingDetails body))
    BookingStatus.PENDING_CONFIRMATION PaymentStatus.PENDING
    None None None nowRow None None None
    (Some (MagicLink.calculateMagicLinkExpiration nowExp)) 0.

(** * Properties *)

(** ** The expiration policy *)

Section Policy.
Import MagicLink.

Lemma last_char_app (p s : string) :
  last_char (p +:+ s) =
  match last_char s with
  | Some d => Some d
  | None => last_char p
  end.
Proof.
  induction p as [|c p IH].
  - change ("" +:+ s) with s. now destruct (last_char s).
  - change (String c p +:+ s) with (String c (p +:+ s)). simpl.
    rewrite IH. now destruct (last_char s), (last_char p).
Qed.

Lemma hours_form_not_Expired (a b : string) :
  a +:+ "h " +:+ b +:+ "m" <> "Expired".
Proof.
  intros E. apply (f_equal last_char) in E.
  rewrite !last_char_app in E. discriminate E.
Qed.

Lemma minutes_form_not_Expired (a : string) : a +:+ "m" <> "Expired".
Proof.
  intros E. apply (f_equal last_char) in E.
  rewrite last_char_app in E. discriminate E.
Qed.

(** The three outcomes of [formatTimeRemaining] on a present expiration,
    told apart by the instants alone. *)
Lemma formatTimeRemaining_cases (t now : Z) :
  formatTimeRemaining (Some t) now =
  if t <=? now then "Expired"
  else
    let minutes := (t - now) / 60000 in
    if now + 3600000 <=? t then
      template (minutes / 60) +:+ "h " +:+ template (Z.rem minutes 60) +:+ "m"
    else template minutes +:+ "m".
Proof.
  unfold formatTimeRemaining, getTimeUntilExpiration.
  destruct (Z.leb_spec t now) as [Hle|Hlt].
  - replace (Z.max 0 (t - now)) with 0 by lia. reflexivity.
  - replace (Z.max 0 (t - now)) with (t - now) by lia.
    destruct (Z.eqb_spec (t - now) 0) as [E|_]; [lia|].
    change (1000 * 60) with 60000. cbv zeta.
    destruct (Z.leb_spec (now + 3600000) t) as [Hh|Hh].
    + assert (60 <= (t - now) / 60000) by (apply Z.div_le_lower_bound; lia).
      assert (1 <= (t - now) / 60000 / 60) by (apply Z.div_le_lower_bound; lia).
      destruct (Z.gtb_spec ((t - now) / 60000 / 60) 0); [reflexivity|lia].
    + assert ((t - now) / 60000 < 60) by (apply Z.div_lt_upper_bound; lia).
      assert (0 <= (t - now) / 60000) by (apply Z.div_pos; lia).
      rewrite (Z.div_small ((t - now) / 60000) 60) by lia. reflexivity.
Qed.

(** C4: [isMagicLinkExpired] is false at every clock value when the
    expiration date is absent; with an expiration date [t] it is true if
    and only if [now > t], so at [now = t] the link is not expired. *)
Theorem isMagicLinkExpired_spec :
  (forall now, isMagicLinkExpired None now = false)
  /\ (forall t now, isMagicLinkExpired (Some t) now = true <-> now > t)
  /\ (forall t, isMagicLinkExpired (Some t) t = false).
Proof.
  split; [reflexivity|]. split.
  - intros t now. unfold isMagicLinkExpired.
    destruct (Z.gtb_spec now t); split; intros; (congruence || lia).
  - intros t. unfold isMagicLinkExpired.
    destruct (Z.gtb_spec t t); [lia|reflexivity].
Qed.

(** C7: [formatTimeRemaining] answers "No expiration" for an absent
    expiration date and "Expired" exactly when the remaining time is zero;
    otherwise it answers "{h}h {m}m" when at least one full hour remains
    and "{m}m" when less does. On the expiration computed at [now]
    (one hour ahead) it answers "1h 0m" at [now], never "Expired". *)
Theorem formatTimeRemaining_spec :
  (forall now, formatTimeRemaining None now = "No expiration")
  /\ (forall t now,
        formatTimeRemaining (Some t) now = "Expired"
        <-> getTimeUntilExpiration (Some t) now = Finite 0)
  /\ (forall t now,
        formatTimeRemaining (Some t) now =
        if t <=? now then "Expired"
        else
          let minutes := (t - now) / 60000 in
          if now + 3600000 <=? t then
            template (minutes / 60) +:+ "h " +:+ template (Z.rem minutes 60) +:+ "m"
          else template minutes +:+ "m")
  /\ (forall now,
        formatTimeRemaining (Some (calculateMagicLinkExpiration now)) now = "1h 0m"
        /\ formatTimeRemaining (Some (calculateMagicLinkExpiration now)) now
           <> "Expired").
Proof.
  split; [reflexivity|]. split; [|split; [exact formatTimeRemaining_cases|]].
  - intros t now. rewrite formatTimeRemaining_cases.
    unfold getTimeUntilExpiration. cbv zeta.
    destruct (Z.leb_spec t now) as [Hle|Hlt].
    + replace (Z.max 0 (t - now)) with 0 by lia. tauto.
    + split.
      * destruct (now + 3600000 <=? t); intros E; exfalso;
          [exact (hours_form_not_Expired _ _ E)|exact (minutes_form_not_Expired _ E)].
      * intros E. injection E as E. lia.
  - intros now.
    assert (E : formatTimeRemaining (Some (calculateMagicLinkExpiration now)) now
                = "1h 0m").
    { rewrite formatTimeRemaining_cases. unfold calculateMagicLinkExpiration.
      destruct (Z.leb_spec (now + 60 * 60 * 1000) now) as [?|_]; [lia|].
      cbv zeta. replace (now + 60 * 60 * 1000 - now) with 3600000 by lia.
      destruct (Z.leb_spec (now + 3600000) (now + 60 * 60 * 1000)) as [_|?]; [|lia].
      reflexivity. }
    split; [exact E|]. rewrite E. discriminate.
Qed.

End Policy.

(** ** The payment-update validator *)

Section Validator.
Import Validation.

Lemma amountErrors_nil (amount : JsVal) :
  amountErrors amount = []
  <-> amount = JUndefined \/ exists x, amount = JNum x /\ SFltb x js_zero = false.
Proof.
  destruct amount as [| |b|x|s|o]; simpl.
  - split; [now left|reflexivity].
  - split; [discriminate|]. intros [E|[y [E _]]]; discriminate.
  - split; [discriminate|]. intros [E|[y [E _]]]; discriminate.
  - unfold when. destruct (SFltb x js_zero) eqn:Hx.
    + split; [discriminate|]. intros [E|[y [E Hy]]]; [discriminate|].
      injection E as <-. congruence.
    + split; [|reflexivity]. intros _. right. now exists x.
  - split; [discriminate|]. intros [E|[y [E _]]]; discriminate.
  - split; [discriminate|]. intros [E|[y [E _]]]; discriminate.
Qed.

Lemma in_when (m msg : string) (c : bool) :
  In m (when c msg) <-> c = true /\ m = msg.
Proof.
  unfold when. destruct c; simpl; intuition congruence.
Qed.

Lemma in_amountErrors (m : string) (amount : JsVal) :
  In m (amountErrors amount) <-> amountErrors amount <> [] /\ m = amount_message.
Proof.
  unfold amount_message.
  destruct amount as [| |b|x|s|o]; simpl; try (intuition congruence).
  unfold when. destruct (SFltb x js_zero); simpl; intuition congruence.
Qed.

(** The amount message is in the error list exactly when the amount clause
    put it there. *)
Lemma amount_message_pushed (body : gmap string JsVal) :
  In amount_message (paymentStatusErrors body)
  <-> amountErrors (field body "amount") <> [].
Proof.
  unfold paymentStatusErrors. cbv zeta.
  rewrite !in_app_iff, !in_when, in_amountErrors.
  change ("paymentStatus must be one of: " +:+ String.concat ", " PaymentStatus.values)
    with "paymentStatus must be one of: PENDING, COMPLETED, FAILED, REFUNDED, CANCELLED".
  unfold amount_message. split.
  - intros H. repeat (destruct H as [H|H]); try (destruct H as [_ H]; discriminate H).
    now destruct H.
  - intros H. do 3 right. left. now split.
Qed.

Lemma truthy_pattern (c : string) : currencyPattern c = true -> truthy (JStr c) = true.
Proof. destruct c; [discriminate|reflexivity]. Qed.

(** C10: the payment-update validator objects to an amount only when it
    is not a number or is strictly negative; a request with a valid
    non-COMPLETED [paymentStatus], [amount = 0], a three-capital-letter
    [currency] and no malformed [paymentId] passes ([next()] is called),
    although the message of the amount clause says "positive". *)
Theorem validatePaymentStatusUpdate_zero_amount :
  (forall body,
      In "amount must be a positive number" (paymentStatusErrors body)
      <-> ~ (field body "amount" = JUndefined
             \/ exists x, field body "amount" = JNum x /\ SFltb x js_zero = false))
  /\ (forall body ps c sign,
        field body "paymentStatus" = JStr ps ->
        In ps PaymentStatus.values ->
        ps <> "COMPLETED" ->
        field body "amount" = JNum (S754_zero sign) ->
        field body "currency" = JStr c ->
        currencyPattern c = true ->
        truthy (field body "paymentId") = false
        \/ typeof (field body "paymentId") = "string" ->
        validatePaymentStatusUpdate body = Next).
Proof.
  split.
  - intros body. fold amount_message. rewrite amount_message_pushed.
    now rewrite amountErrors_nil.
  - intros body ps c sign Hps Hin Hne Ham Hcu Hpat Hid.
    unfold validatePaymentStatusUpdate, paymentStatusErrors. cbv zeta.
    rewrite Hps, Ham, Hcu.
    assert (Ht : truthy (JStr ps) = true).
    { simpl in Hin. decompose [or] Hin; subst; try reflexivity; contradiction. }
    assert (Hinc : includes PaymentStatus.values (JStr ps) = true).
    { simpl in Hin. decompose [or] Hin; subst; try reflexivity; contradiction. }
    assert (Hcomp : strict_eq_string (JStr ps) "COMPLETED" = false).
    { simpl. now apply String.eqb_neq. }
    assert (Hpid : truthy (field body "paymentId")
                   && negb (typeof (field body "paymentId") =? "string")%string = false).
    { destruct Hid as [->| ->]; [reflexivity|]. apply andb_false_r. }
    rewrite Ht, Hinc, Hcomp, Hpid, (truthy_pattern c Hpat).
    simpl test_currency. rewrite Hpat.
    destruct sign; reflexivity.
Qed.

(** A body [{ paymentStatus: "PENDING", amount: 0, currency: "USD" }]. *)
Lemma validatePaymentStatusUpdate_zero_amount_witness :
  validatePaymentStatusUpdate
    {[ "paymentStatus" := JStr "PENDING"; "amount" := JNum js_zero;
       "currency" := JStr "USD" ]} = Next.
Proof.
  apply (proj2 validatePaymentStatusUpdate_zero_amount _ "PENDING" "USD" false).
  - reflexivity.
  - simpl. tauto.
  - discriminate.
  - reflexivity.
  - reflexivity.
  - reflexivity.
  - left. reflexivity.
Defined.

End Validator.

(** ** The store operations *)

Section StoreFacts.
Import Prisma.

Lemma findUnique_found key k s b :
  findUnique key k s = Some b -> key b = k /\ In b (bookings s).
Proof.
  unfold findUnique. intros H. apply find_some in H as [Hin Hk].
  split; [now apply String.eqb_eq|exact Hin].
Qed.

(** With a unique primary key, the row found under any key is the row its
    own [id] finds. *)
Lemma find_by_id rows b :
  NoDup (map Booking.id rows) -> In b rows ->
  find (fun r => (Booking.id r =? Booking.id b)%string) rows = Some b.
Proof.
  induction rows as [|r rows IH]; intros Hnd Hin; [contradiction|].
  simpl in *. apply NoDup_cons in Hnd as [Hr Hnd].
  destruct (String.eqb_spec (Booking.id r) (Booking.id b)) as [E|E].
  - destruct Hin as [->|Hin]; [reflexivity|].
    exfalso. apply Hr. rewrite E. apply list_elem_of_In. now apply in_map.
  - destruct Hin as [->|Hin]; [congruence|]. now apply IH.
Qed.

Lemma findUnique_by_id key k s b :
  pk_unique s -> findUnique key k s = Some b ->
  findUnique Booking.id (Booking.id b) s = Some b.
Proof.
  intros Hpk H. apply findUnique_found in H as [_ Hin].
  now apply find_by_id.
Qed.

(** An update through key [key2] of the row that [key1] finds, by a [data]
    that keeps [key1]: the same lookup then finds the updated row. *)
Lemma update_rows_found key1 key2 k1 k2 data rows b :
  (forall x, key1 (data x) = key1 x) ->
  find (fun r => (key1 r =? k1)%string) rows = Some b ->
  find (fun r => (key2 r =? k2)%string) rows = Some b ->
  exists rows',
    update_rows key2 k2 data rows = Some (data b, rows')
    /\ find (fun r => (key1 r =? k1)%string) rows' = Some (data b).
Proof.
  intros Hkeep. induction rows as [|r rows IH]; [discriminate|].
  simpl. intros H1 H2.
  destruct (String.eqb_spec (key1 r) k1) as [E1|E1];
    destruct (String.eqb_spec (key2 r) k2) as [E2|E2].
  - injection H1 as <-. eexists. split; [reflexivity|].
    simpl. rewrite Hkeep. now rewrite (proj2 (String.eqb_eq _ _) E1).
  - injection H1 as <-. apply find_some in H2 as [_ H2].
    apply String.eqb_eq in H2. contradiction.
  - injection H2 as <-. apply find_some in H1 as [_ H1].
    apply String.eqb_eq in H1. contradiction.
  - destruct (IH H1 H2) as [rows' [-> Hf]]. eexists. split; [reflexivity|].
    simpl. now rewrite (proj2 (String.eqb_neq _ _) E1).
Qed.

Lemma update_rows_keeps {A} (f : Booking.t -> A) key k data rows b' rows' :
  (forall x, f (data x) = f x) ->
  update_rows key k data rows = Some (b', rows') ->
  map f rows' = map f rows.
Proof.
  intros Hkeep. revert b' rows'.
  induction rows as [|r rows IH]; intros b' rows'; [discriminate|].
  simpl. destruct (key r =? k)%string.
  - intros [= <- <-]. simpl. now rewrite Hkeep.
  - destruct (update_rows key k data rows) as [[c rest]|] eqn:E; [|discriminate].
    intros [= <- <-]. simpl. f_equal. now apply (IH c).
Qed.

Lemma update_rows_missing key k data rows :
  find (fun r => (key r =? k)%string) rows = None ->
  update_rows key k data rows = None.
Proof.
  induction rows as [|r rows IH]; [reflexivity|].
  simpl. destruct (key r =? k)%string; [discriminate|].
  intros H. now rewrite IH.
Qed.

Lemma rows_evolve_refl rows : Forall2 row_evolves rows rows.
Proof.
  induction rows; constructor; [|assumption].
  unfold row_evolves. repeat split; lia.
Qed.

Lemma update_rows_evolves key k data rows b' rows' :
  (forall x, row_evolves x (data x)) ->
  update_rows key k data rows = Some (b', rows') ->
  Forall2 row_evolves rows rows'.
Proof.
  intros Hdata. revert b' rows'.
  induction rows as [|r rows IH]; intros b' rows'; [discriminate|].
  simpl. destruct (key r =? k)%string.
  - intros [= <- <-]. constructor; [apply Hdata|apply rows_evolve_refl].
  - destruct (update_rows key k data rows) as [[c rest]|] eqn:E; [|discriminate].
    intros [= <- <-]. constructor; [|now apply (IH c)].
    unfold row_evolves. repeat split; lia.
Qed.

Lemma data_access_evolves now b : row_evolves b (data_access now b).
Proof. unfold row_evolves. simpl. repeat split; lia. Qed.

Lemma data_confirm_evolves now b : row_evolves b (data_confirm now b).
Proof. unfold row_evolves. simpl. repeat split; lia. Qed.

Lemma data_payment_evolves ps pid am cu now b :
  row_evolves b (data_payment ps pid am cu now b).
Proof. unfold row_evolves. simpl. repeat split; lia. Qed.

Lemma evolves_refl s : evolves s s.
Proof.
  exists (bookings s), []. split; [now rewrite app_nil_r|].
  apply rows_evolve_refl.
Qed.

Lemma row_evolves_trans a b c : row_evolves a b -> row_evolves b c -> row_evolves a c.
Proof.
  unfold row_evolves. intros (?&?&?&?) (?&?&?&?). repeat split; (congruence || lia).
Qed.

Lemma evolves_trans s1 s2 s3 : evolves s1 s2 -> evolves s2 s3 -> evolves s1 s3.
Proof.
  intros (r1 & a1 & E1 & F1) (r2 & a2 & E2 & F2). rewrite E1 in F2.
  apply Forall2_app_inv_l in F2 as (r2a & r2b & Fa & Fb & ->).
  exists r2a, (r2b ++ a2)%list. split; [now rewrite E2, app_assoc|].
  clear -F1 Fa. revert r2a Fa.
  induction F1 as [|x y l l' Hxy _ IH]; intros r2a Fa.
  - inversion Fa. constructor.
  - inversion Fa as [|? z ? l'' Hyz Fl]; subst. constructor.
    + exact (row_evolves_trans _ _ _ Hxy Hyz).
    + now apply IH.
Qed.

Lemma update_evolves key k fits data s b' s' :
  (forall x, row_evolves x (data x)) ->
  update key k fits data s = Written b' s' -> evolves s s'.
Proof.
  unfold update. intros Hdata.
  destruct (update_rows key k data (bookings s)) as [[c rows]|] eqn:E; [|discriminate].
  destruct (fits c); [|discriminate].
  intros [= <- <-]. exists rows, []. split; [simpl; now rewrite app_nil_r|].
  exact (update_rows_evolves _ _ _ _ _ _ Hdata E).
Qed.

Lemma update_by_id_written id fits data s b' s' :
  update_by_id id fits data s = Written b' s' ->
  exists u, Column.uuid id = Some u /\ update Booking.id u fits data s = Written b' s'.
Proof.
  unfold update_by_id. destruct (Column.uuid id) as [u|]; [|discriminate].
  intros H. now exists u.
Qed.

Lemma createAnalytics_some row s s' :
  createAnalytics row s = Some s' ->
  bookings s' = bookings s /\ analytics s' = (analytics s ++ [row])%list.
Proof.
  unfold createAnalytics. destruct (Column.varchar _ _); [|discriminate].
  now intros [= <-].
Qed.

Lemma createAnalytics_default row s :
  bookings (default s (createAnalytics row s)) = bookings s.
Proof.
  destruct (createAnalytics row s) as [s'|] eqn:E; [|reflexivity].
  exact (proj1 (createAnalytics_some _ _ _ E)).
Qed.

Lemma create_evolves row s s' : create row s = Some s' -> evolves s s'.
Proof.
  unfold create. destruct (existsb _ _); [discriminate|].
  destruct (_ && _); [|discriminate].
  intros [= <-]. exists (bookings s), [row]. split; [reflexivity|].
  apply rows_evolve_refl.
Qed.

End StoreFacts.

Section UpdateFacts.
Import Prisma.

(** An update of a row that is found writes it when the new values fit
    their columns, and is refused when they do not. *)
Lemma update_found key1 key2 k1 k2 fits data s b :
  (forall x, key1 (data x) = key1 x) ->
  findUnique key1 k1 s = Some b ->
  findUnique key2 k2 s = Some b ->
  exists rows',
    update key2 k2 fits data s
    = (if fits (data b) then Written (data b) (mkStore rows' (analytics s))
       else Rejected)
    /\ findUnique key1 k1 (mkStore rows' (analytics s)) = Some (data b)
    /\ forall A (f : Booking.t -> A),
         (forall x, f (data x) = f x) -> map f rows' = map f (bookings s).
Proof.
  unfold findUnique, update. intros Hkeep H1 H2.
  destruct (update_rows_found key1 key2 k1 k2 data _ b Hkeep H1 H2) as [rows' [E Hf]].
  exists rows'. rewrite E. repeat split; [exact Hf|].
  intros A f Hf'. exact (update_rows_keeps f _ _ _ _ _ _ Hf' E).
Qed.

Lemma update_missing key k fits data s :
  findUnique key k s = None -> update key k fits data s = RecordNotFound.
Proof.
  unfold findUnique, update. intros H. now rewrite update_rows_missing.
Qed.

(** A text that is read as a UUID is not empty. *)
Lemma uuid_nonempty id u : Column.uuid id = Some u -> id <> "".
Proof. intros H ->. discriminate. Qed.

End UpdateFacts.

(** ** Routing *)

Section Routing.

(** A bound, non-empty path parameter is read back by the handler. *)
Lemma bound_param (name v : string) (req : Request) :
  v <> "" -> or_else (params (with_params {[ name := v ]} req) !! name) None = Some v.
Proof.
  intros Hv. simpl. rewrite lookup_singleton_eq. simpl.
  now rewrite (proj2 (String.eqb_neq _ _) Hv).
Qed.

(** [validateNanoId] reads the parameter [nanoid], which no route of
    src/routes/redirect.ts binds: it answers 400 to every request. *)
Lemma validateNanoId_rejects (magicLinkId : string) (req : Request) :
  Validation.validateNanoId (RedirectRoutes.bind magicLinkId req)
  = Respond (Json 400 (Failure "Invalid magic link ID"
                         "The provided magic link ID is not in a valid format")).
Proof.
  unfold Validation.validateNanoId, RedirectRoutes.bind. simpl.
  rewrite lookup_singleton_ne by discriminate. reflexivity.
Qed.

(** Had the router bound the name the validator reads, a well-formed
    token would pass. *)
Lemma validateNanoId_accepts (nanoid : string) (req : Request) :
  Validation.nanoidPattern nanoid = true ->
  Validation.validateNanoId (with_params {[ "nanoid" := nanoid ]} req) = Next.
Proof.
  intros Hp. unfold Validation.validateNanoId. simpl.
  rewrite lookup_singleton_eq. simpl. rewrite Hp.
  destruct nanoid; [discriminate|reflexivity].
Qed.

Lemma guarded_route_rejects (magicLinkId : string) handler (req : Request) (s : Store) :
  route Validation.validateNanoId handler (RedirectRoutes.bind magicLinkId req) s
  = (Json 400 (Failure "Invalid magic link ID"
                 "The provided magic link ID is not in a valid format"), s).
Proof. unfold route. now rewrite validateNanoId_rejects. Qed.

End Routing.

(** ** Confirmation *)

Section Confirmation.
Import Prisma BookingRoutes.

Lemma confirm_known uuid u now req s b :
  Column.uuid uuid = Some u ->
  findUnique Booking.id u s = Some b ->
  exists rows',
    POST_confirm uuid now req s
    = (Json 200 (Confirmed (Booking.bookingId b) u BookingStatus.CONFIRMED
                   "Appointment confirmed successfully."),
       mkStore rows' (analytics s))
    /\ findUnique Booking.id u (mkStore rows' (analytics s))
       = Some (data_confirm now b).
Proof.
  intros Hu Hb. unfold POST_confirm, confirm.
  rewrite (bound_param _ _ _ (uuid_nonempty _ _ Hu)).
  unfold update_by_id. rewrite Hu.
  destruct (update_found Booking.id Booking.id u u (fun _ => true)
              (data_confirm now) s b)
    as (rows' & -> & Hf & _); [reflexivity|assumption|assumption|].
  exists rows'. split; [|exact Hf]. simpl.
  now rewrite (proj1 (findUnique_found _ _ _ _ Hb)).
Qed.

(** C6: for an id that is the standard text of a UUID [u] (digits in
    either case): confirming the id of a stored booking answers 200, sets
    [status] to CONFIRMED and [confirmedAt] to the clock reading whatever
    the status was, touching no other field; confirming again succeeds and
    moves [confirmedAt] to the new reading; a UUID that no booking has is
    answered 404 "Booking not found" and the store is left as it was. *)
Theorem confirm_spec (uuid u : string) (now : Z) (req : Request) (s : Store) :
  Column.standard uuid = true ->
  Column.uuid uuid = Some u ->
  (forall b,
      findUnique Booking.id u s = Some b ->
      exists s',
        POST_confirm uuid now req s
        = (Json 200 (Confirmed (Booking.bookingId b) u BookingStatus.CONFIRMED
                       "Appointment confirmed successfully."), s')
        /\ findUnique Booking.id u s' = Some (data_confirm now b)
        /\ Booking.status (data_confirm now b) = BookingStatus.CONFIRMED
        /\ Booking.confirmedAt (data_confirm now b) = Some now
        /\ forall now2, exists s'',
             POST_confirm uuid now2 req s'
             = (Json 200 (Confirmed (Booking.bookingId b) u BookingStatus.CONFIRMED
                            "Appointment confirmed successfully."), s'')
             /\ findUnique Booking.id u s''
                = Some (data_confirm now2 (data_confirm now b))
             /\ Booking.confirmedAt (data_confirm now2 (data_confirm now b))
                = Some now2)
  /\ (findUnique Booking.id u s = None ->
      POST_confirm uuid now req s
      = (Json 404 (Failure "Booking not found"
                     "Unable to find booking with the provided UUID."), s)).
Proof.
  intros _ Hu. split.
  - intros b Hb.
    destruct (confirm_known uuid u now req s b Hu Hb) as (rows' & E & Hf).
    eexists. split; [exact E|]. split; [exact Hf|]. do 2 (split; [reflexivity|]).
    intros now2.
    destruct (confirm_known uuid u now2 req _ _ Hu Hf) as (rows'' & E2 & Hf2).
    eexists. split; [exact E2|]. split; [exact Hf2|reflexivity].
  - intros Hb. unfold POST_confirm, confirm.
    rewrite (bound_param _ _ _ (uuid_nonempty _ _ Hu)).
    unfold update_by_id. rewrite Hu.
    now rewrite (update_missing _ _ _ _ _ Hb).
Qed.

(** The sample booking, pending confirmation, confirmed at instant
    [2000000] through its id written in upper case. *)
Lemma confirm_spec_witness :
  exists s',
    POST_confirm "7B0C1C1E-5C1A-4A6E-9F43-0D2F6F1F2A10" 2000000 req0 store0
    = (Json 200 (Confirmed (Booking.bookingId booking0) (Booking.id booking0)
                   BookingStatus.CONFIRMED "Appointment confirmed successfully."), s')
    /\ findUnique Booking.id (Booking.id booking0) s'
       = Some (data_confirm 2000000 booking0).
Proof.
  assert (Hs : Column.standard "7B0C1C1E-5C1A-4A6E-9F43-0D2F6F1F2A10" = true)
    by reflexivity.
  assert (Hu : Column.uuid "7B0C1C1E-5C1A-4A6E-9F43-0D2F6F1F2A10"
               = Some (Booking.id booking0)) by reflexivity.
  destruct (proj1 (confirm_spec _ _ 2000000 req0 store0 Hs Hu) booking0 eq_refl)
    as (s' & E & Hf & _).
  exists s'. split; [exact E|exact Hf].
Defined.

(** An id that is not the text of a UUID is no booking's id, and its
    confirmation is answered 500, not 404: the update raises an error
    other than "Record to update not found". *)
Lemma confirm_unreadable_id_is_500 :
  findUnique Booking.id "abc" store0 = None
  /\ POST_confirm "abc" 2000000 req0 store0
     = (Json 500 (Failure "Internal server error"
                    "An unexpected error occurred while confirming the booking."),
        store0)
  /\ (POST_confirm "abc" 2000000 req0 store0).1
     <> Json 404 (Failure "Booking not found"
                   "Unable to find booking with the provided UUID.").
Proof. split; [reflexivity|]. split; [reflexivity|discriminate]. Qed.

End Confirmation.

(** ** Resolution of a known token *)

Section Resolution.
Import Prisma.

Lemma admitted_ext b b' r :
  Booking.magicLinkExpiresAt b' = Booking.magicLinkExpiresAt b ->
  admitted b r -> admitted b' r.
Proof.
  intros E. unfold admitted, BookingRoutes.past_expiry. now rewrite E.
Qed.

(** The count after an increment fits its column as long as the count
    before it is below the largest 32-bit integer. *)
Lemma access_fits_next now b :
  Column.int4 (Booking.accessCount b) = true ->
  Booking.accessCount b < 2147483647 ->
  access_fits (data_access now b) = true.
Proof.
  unfold access_fits, Column.int4. simpl. intros H Hlt.
  apply andb_true_iff in H as [Hlo _]. apply Z.leb_le in Hlo.
  apply andb_true_iff. split; apply Z.leb_le; lia.
Qed.

Lemma access_fits_full now b :
  Booking.accessCount b = 2147483647 -> access_fits (data_access now b) = false.
Proof. unfold access_fits. simpl. now intros ->. Qed.

(** One resolution of the token of booking [b], not expired, with room in
    the counter. *)
Lemma resolve_admitted tok s b r :
  tok <> "" -> pk_unique s ->
  findUnique Booking.magicLinkId tok s = Some b ->
  Column.int4 (Booking.accessCount b) = true ->
  Booking.accessCount b < 2147483647 ->
  admitted b r ->
  exists rows',
    resolve tok r s
    = (success_of b r, mkStore rows' (analytics s ++ events_of b r)%list)
    /\ findUnique Booking.magicLinkId tok
         (mkStore rows' (analytics s ++ events_of b r)%list)
       = Some (data_access (touch_of r) b)
    /\ map Booking.id rows' = map Booking.id (bookings s).
Proof.
  intros Hne Hpk Hb Hfit Hlt Hadm.
  destruct r as [env nowTouch nowEvent evId req|nowCheck nowTouch req]; simpl.
  - unfold RedirectRoutes.GET_appt, RedirectRoutes.redirect, RedirectRoutes.bind.
    rewrite (bound_param _ _ _ Hne), Hb.
    destruct (update_found Booking.magicLinkId Booking.magicLinkId tok tok
                access_fits (data_access nowTouch) s b) as (rows' & -> & Hf & Hmap);
      [reflexivity|assumption|assumption|].
    rewrite (access_fits_next _ _ Hfit Hlt).
    exists rows'. split; [reflexivity|]. split; [exact Hf|].
    now apply Hmap.
  - unfold BookingRoutes.GET_magic, BookingRoutes.getByMagicLink.
    rewrite (bound_param _ _ _ Hne), Hb.
    unfold admitted in Hadm. simpl in Hadm. rewrite Hadm.
    destruct (update_found Booking.magicLinkId Booking.id tok (Booking.id b)
                access_fits (data_access nowTouch) s b) as (rows' & -> & Hf & Hmap);
      [reflexivity|assumption|now apply (findUnique_by_id Booking.magicLinkId tok)|].
    rewrite (access_fits_next _ _ Hfit Hlt).
    exists rows'. rewrite app_nil_r. split; [reflexivity|]. split; [exact Hf|].
    now apply Hmap.
Qed.

Lemma int4_next now b :
  Column.int4 (Booking.accessCount b) = true ->
  Booking.accessCount b < 2147483647 ->
  Column.int4 (Booking.accessCount (data_access now b)) = true.
Proof. exact (access_fits_next now b). Qed.

Lemma resolve_all_counts tok rs :
  forall s b,
    tok <> "" -> pk_unique s ->
    findUnique Booking.magicLinkId tok s = Some b ->
    Column.int4 (Booking.accessCount b) = true ->
    Booking.accessCount b + Z.of_nat (length rs) <= 2147483647 ->
    Forall (admitted b) rs ->
    exists b',
      findUnique Booking.magicLinkId tok (resolve_all tok rs s) = Some b'
      /\ Booking.accessCount b' = Booking.accessCount b + Z.of_nat (length rs).
Proof.
  induction rs as [|r rs IH]; intros s b Hne Hpk Hb Hfit Hroom Hall.
  - exists b. split; [exact Hb|simpl; lia].
  - apply Forall_cons in Hall as [Hr Hrs].
    assert (Hlt : Booking.accessCount b < 2147483647) by (simpl length in Hroom; lia).
    destruct (resolve_admitted tok s b r Hne Hpk Hb Hfit Hlt Hr)
      as (rows' & E & Hf & Hmap).
    unfold resolve_all. simpl fold_left. rewrite E. simpl snd.
    destruct (IH (mkStore rows' (analytics s ++ events_of b r)%list)
                (data_access (touch_of r) b) Hne) as (b' & Hb' & Hc).
    + unfold pk_unique. simpl. now rewrite Hmap.
    + exact Hf.
    + now apply int4_next.
    + simpl. simpl length in Hroom. lia.
    + eapply Forall_impl; [exact Hrs|]. intros x. now apply admitted_ext.
    + exists b'. split; [exact Hb'|]. rewrite Hc. simpl. lia.
Qed.

(** The preview handler looks the booking up and answers; it writes
    nothing and reads no clock. *)
Lemma preview_known env tok req s b :
  tok <> "" ->
  findUnique Booking.magicLinkId tok s = Some b ->
  RedirectRoutes.preview env (RedirectRoutes.bind tok req) s
  = (Json 200
       (Preview (mkPreviewView (Booking.id b) (Booking.bookingId b)
                   (Booking.userName b) (Booking.appointmentType b)
                   (Booking.status b) (Booking.paymentStatus b)
                   (RedirectRoutes.redirectUrl env b)
                   (protocol req +:+ "://" +:+ default "undefined" (headers req !! "host")
                    +:+ "/appt/" +:+ tok)
                   (Booking.createdAt b))), s).
Proof.
  intros Hne Hb. unfold RedirectRoutes.preview, RedirectRoutes.bind.
  now rewrite (bound_param _ _ _ Hne), Hb.
Qed.

(** The target of a successful redirect is not the server-error page. *)
Lemma success_not_server_error env b :
  RedirectRoutes.redirectUrl env b
  <> RedirectRoutes.frontend env +:+ "/booking/error?reason=server_error".
Proof.
  unfold RedirectRoutes.redirectUrl. cbv zeta.
  intros E. apply (f_equal last_char) in E.
  rewrite !last_char_app in E. discriminate E.
Qed.

(** With a full counter no resolution succeeds, and none writes. *)
Lemma resolve_full tok s b r :
  tok <> "" -> pk_unique s ->
  findUnique Booking.magicLinkId tok s = Some b ->
  Booking.accessCount b = 2147483647 ->
  (resolve tok r s).2 = s /\ (resolve tok r s).1 <> success_of b r.
Proof.
  intros Hne Hpk Hb Hfull.
  destruct r as [env nowTouch nowEvent evId req|nowCheck nowTouch req]; simpl.
  - unfold RedirectRoutes.GET_appt, RedirectRoutes.redirect, RedirectRoutes.bind.
    rewrite (bound_param _ _ _ Hne), Hb.
    destruct (update_found Booking.magicLinkId Booking.magicLinkId tok tok
                access_fits (data_access nowTouch) s b) as (rows' & -> & _);
      [reflexivity|assumption|assumption|].
    rewrite (access_fits_full _ _ Hfull). split; [reflexivity|].
    simpl. intros [= E]. symmetry in E. now apply success_not_server_error in E.
  - unfold BookingRoutes.GET_magic, BookingRoutes.getByMagicLink.
    rewrite (bound_param _ _ _ Hne), Hb.
    destruct (BookingRoutes.past_expiry b nowCheck); [split; [reflexivity|discriminate]|].
    destruct (update_found Booking.magicLinkId Booking.id tok (Booking.id b)
                access_fits (data_access nowTouch) s b) as (rows' & -> & _);
      [reflexivity|assumption|now apply (findUnique_by_id Booking.magicLinkId tok)|].
    rewrite (access_fits_full _ _ Hfull). split; [reflexivity|discriminate].
Qed.

(** C2, as the code has it: a resolution of a known token that has not
    expired, on the redirect path or on the magic-API path, succeeds while
    the 32-bit counter is below its maximum; it adds exactly 1 to
    [accessCount] and sets [lastAccessedAt] to the clock reading of the
    update; the redirect path appends one "magic_link_click" analytics row
    and the magic-API path appends none; the preview handler leaves the
    store as it is. With the counter at its maximum such a resolution
    fails and writes nothing. After N successful resolutions on the two
    counting paths [accessCount] has grown by N, so it is N for a booking
    created with count 0. *)
Theorem resolution_counts_accesses (tok : string) (s : Store) (b : Booking.t) :
  tok <> "" -> pk_unique s ->
  findUnique Booking.magicLinkId tok s = Some b ->
  Column.int4 (Booking.accessCount b) = true ->
  (forall r, admitted b r -> Booking.accessCount b < 2147483647 ->
     exists s' b',
       resolve tok r s = (success_of b r, s')
       /\ findUnique Booking.magicLinkId tok s' = Some b'
       /\ b' = data_access (touch_of r) b
       /\ Booking.accessCount b' = Booking.accessCount b + 1
       /\ Booking.lastAccessedAt b' = Some (touch_of r)
       /\ analytics s' = (analytics s ++ events_of b r)%list)
  /\ (forall r, admitted b r -> Booking.accessCount b = 2147483647 ->
        (resolve tok r s).2 = s /\ (resolve tok r s).1 <> success_of b r)
  /\ (forall env req, (RedirectRoutes.preview env (RedirectRoutes.bind tok req) s).2 = s)
  /\ (forall rs, Forall (admitted b) rs ->
        Booking.accessCount b + Z.of_nat (length rs) <= 2147483647 ->
        exists b',
          findUnique Booking.magicLinkId tok (resolve_all tok rs s) = Some b'
          /\ Booking.accessCount b' = Booking.accessCount b + Z.of_nat (length rs)).
Proof.
  intros Hne Hpk Hb Hfit. split; [|split; [|split]].
  - intros r Hr Hlt.
    destruct (resolve_admitted tok s b r Hne Hpk Hb Hfit Hlt Hr)
      as (rows' & E & Hf & _).
    eexists. exists (data_access (touch_of r) b).
    split; [exact E|]. split; [exact Hf|]. repeat split.
  - intros r _ Hfull. now apply resolve_full.
  - intros env req. now rewrite (preview_known env tok req s b Hne Hb).
  - intros rs Hall Hroom. now apply resolve_all_counts.
Qed.

(** Three resolutions of the sample token before its expiration, two by
    redirect and one by the API: the count goes from 0 to 3. *)
Lemma resolution_counts_accesses_witness :
  exists b',
    findUnique Booking.magicLinkId "V1StGXR8_Z5j"
      (resolve_all "V1StGXR8_Z5j"
         [ViaRedirect env0 2000000 2000001 "e-3" req0;
          ViaMagicApi 2100000 2100001 req0;
          ViaRedirect env0 3000000 3000001 "e-4" req0] store0) = Some b'
    /\ Booking.accessCount b' = 0 + Z.of_nat 3.
Proof.
  refine (proj2 (proj2 (proj2 (resolution_counts_accesses "V1StGXR8_Z5j" store0
                                 booking0 _ _ _ _))) _ _ _).
  - discriminate.
  - unfold pk_unique. simpl. apply NoDup_singleton.
  - reflexivity.
  - reflexivity.
  - repeat constructor.
  - simpl. lia.
Defined.

(** C2 as stated fails on the magic-API path: the sample token, resolved
    before its expiration, is answered 200 with the booking, the count goes
    up, and no "magic_link_click" row (no row at all) is added. It fails on
    the preview handler too, which answers 200 and counts nothing. *)
Lemma resolution_without_event :
  let out := BookingRoutes.GET_magic "V1StGXR8_Z5j" 2000000 2000001 req0 store0 in
  out.1 = Json 200 (Details (BookingRoutes.view booking0 None))
  /\ analytics out.2 = analytics store0
  /\ ~ In "magic_link_click" (map BookingAnalytics.eventType (analytics out.2))
  /\ (exists d,
        (RedirectRoutes.preview env0 (RedirectRoutes.bind "V1StGXR8_Z5j" req0) store0)
        = (Json 200 (Preview d), store0)).
Proof.
  split; [reflexivity|]. split; [reflexivity|]. split.
  - simpl. intros [H|[H|[]]]; discriminate H.
  - eexists. reflexivity.
Qed.

End Resolution.

(** ** What no operation does to a stored booking *)

Section Frame.
Import Prisma.

Lemma evolves_same_bookings s s' s'' :
  bookings s'' = bookings s' -> evolves s s' -> evolves s s''.
Proof. intros E (rows & added & H & F). exists rows, added. now rewrite E. Qed.

Lemma handle_evolves h req s : evolves s (handle h req s).2.
Proof.
  destruct h; simpl.
  - unfold BookingRoutes.create.
    destruct (create _ s) as [s'|] eqn:E; simpl;
      [exact (create_evolves _ _ _ E)|apply evolves_refl].
  - unfold BookingRoutes.confirm.
    destruct (or_else _ _) as [uuid|]; [|apply evolves_refl].
    destruct (update_by_id _ _ _ s) as [b' s'| |] eqn:E; simpl;
      try apply evolves_refl.
    apply update_by_id_written in E as (u & _ & E).
    exact (update_evolves _ _ _ _ _ _ _ (data_confirm_evolves now) E).
  - unfold BookingRoutes.payment.
    destruct (or_else _ _) as [uuid|]; [|apply evolves_refl].
    destruct (update_by_id _ _ _ s) as [b' s'| |] eqn:E; simpl;
      try apply evolves_refl.
    apply update_by_id_written in E as (u & _ & E).
    exact (update_evolves _ _ _ _ _ _ _ (data_payment_evolves _ _ _ _ now) E).
  - unfold BookingRoutes.getById.
    destruct (or_else _ _) as [id|]; [|apply evolves_refl].
    destruct (findUnique _ _ s); apply evolves_refl.
  - unfold BookingRoutes.getByMagicLink.
    destruct (or_else _ _) as [tok|]; [|apply evolves_refl].
    destruct (findUnique _ _ s) as [b|]; [|apply evolves_refl].
    destruct (BookingRoutes.past_expiry b nowCheck); [apply evolves_refl|].
    destruct (update _ _ _ _ s) as [b' s'| |] eqn:E; simpl;
      try apply evolves_refl.
    exact (update_evolves _ _ _ _ _ _ _ (data_access_evolves nowTouch) E).
  - unfold RedirectRoutes.redirect.
    destruct (or_else _ _) as [tok|]; [|apply evolves_refl].
    destruct (findUnique _ _ s) as [b|]; [|apply evolves_refl].
    destruct (update _ _ _ _ s) as [b' s'| |] eqn:E; simpl;
      try apply evolves_refl.
    apply (evolves_same_bookings s s'); [reflexivity|].
    exact (update_evolves _ _ _ _ _ _ _ (data_access_evolves nowTouch) E).
  - unfold RedirectRoutes.preview.
    destruct (or_else _ _) as [tok|]; [|apply evolves_refl].
    destruct (findUnique _ _ s); apply evolves_refl.
  - unfold RedirectRoutes.track.
    destruct (or_else _ _) as [tok|]; [|apply evolves_refl].
    destruct (findUnique _ _ s); [|apply evolves_refl].
    destruct (createAnalytics _ s) as [s'|] eqn:E; simpl; [|apply evolves_refl].
    apply (evolves_same_bookings s s);
      [exact (proj1 (createAnalytics_some _ _ _ E))|apply evolves_refl].
  - unfold RedirectRoutes.analyticsOf.
    destruct (or_else _ _) as [tok|]; [|apply evolves_refl].
    destruct (findUnique _ _ s); apply evolves_refl.
Qed.

Lemma serve_evolves st s : evolves s (serve st s).2.
Proof.
  destruct st as [[mw h] req]. unfold serve, route.
  destruct (mw req); [apply evolves_refl|apply handle_evolves].
Qed.

Lemma run_evolves steps : forall s, evolves s (run steps s).
Proof.
  induction steps as [|st steps IH]; intros s; [apply evolves_refl|].
  unfold run. simpl. apply (evolves_trans _ (serve st s).2).
  - apply serve_evolves.
  - apply IH.
Qed.

(** C5: whatever handler of the core serves a request, behind whatever
    middleware, and so after any sequence of requests (creations,
    confirmations, payment updates, accesses, tracking, reads), every
    booking that was stored is still stored in its place with the same
    [id], the same [magicLinkExpiresAt] and an [accessCount] that has not
    gone down. *)
Theorem stored_booking_evolves :
  (forall st s, evolves s (serve st s).2)
  /\ (forall steps s (i : nat) b,
        bookings s !! i = Some b ->
        exists b',
          bookings (run steps s) !! i = Some b'
          /\ Booking.id b' = Booking.id b
          /\ Booking.magicLinkExpiresAt b' = Booking.magicLinkExpiresAt b
          /\ Booking.accessCount b <= Booking.accessCount b').
Proof.
  split; [exact serve_evolves|].
  intros steps s i b Hi.
  destruct (run_evolves steps s) as (rows & added & E & F).
  destruct (Forall2_lookup_l _ _ _ _ _ F Hi) as (b' & Hi' & Hid & _ & Hexp & Hcnt).
  exists b'. rewrite E. split; [|tauto].
  apply lookup_app_l_Some. exact Hi'.
Qed.

(** The sample booking through a confirmation, a payment update and a
    redirect. *)
Lemma stored_booking_evolves_witness :
  exists b',
    bookings
      (run [(fun _ => Next, HConfirm 2000000,
             with_params {[ "uuid" := Booking.id booking0 ]} req0);
            (fun _ => Next,
             HPayment (BookingRoutes.mkUpdatePayment PaymentStatus.FAILED None None None)
               2100000,
             with_params {[ "uuid" := Booking.id booking0 ]} req0);
            (fun _ => Next, HRedirect env0 2200000 2200001 "e-3",
             RedirectRoutes.bind "V1StGXR8_Z5j" req0)] store0) !! 0%nat = Some b'
    /\ Booking.id b' = Booking.id booking0
    /\ Booking.magicLinkExpiresAt b' = Booking.magicLinkExpiresAt booking0
    /\ Booking.accessCount booking0 <= Booking.accessCount b'.
Proof.
  apply (proj2 stored_booking_evolves). reflexivity.
Defined.

End Frame.

(** ** An unknown token *)

Section UnknownToken.
Import Prisma RedirectRoutes.

(** C3, as the code has it: for a token that finds no booking, every
    resolver route (redirect, preview, magic API, track) leaves the store
    as it was: no [accessCount] or [lastAccessedAt] is written and no
    analytics row is added. The redirect and magic-API routes answer with
    the not-found exit, and so do the preview and track handlers when the
    request reaches them. *)
Theorem unknown_token_changes_nothing (env : Env) (tok : string) (req : Request)
    (s : Store) :
  tok <> "" ->
  findUnique Booking.magicLinkId tok s = None ->
  (forall nowTouch nowEvent evId,
      GET_appt env tok nowTouch nowEvent evId req s
      = (Redirect 302 (frontend env +:+ "/booking/error?reason=not_found"), s))
  /\ (forall nowCheck nowTouch,
        BookingRoutes.GET_magic tok nowCheck nowTouch req s
        = (Json 404 (Failure "Booking not found"
                       "Unable to find booking with the provided magic link ID."), s))
  /\ (GET_preview env tok req s).2 = s
  /\ (forall body nowEvent evId, (POST_track tok body nowEvent evId req s).2 = s)
  /\ preview env (bind tok req) s = (not_found, s)
  /\ (forall body nowEvent evId,
        track body nowEvent evId (bind tok req) s = (not_found, s)).
Proof.
  intros Hne Hb. split; [|split; [|split; [|split; [|split]]]].
  - intros. unfold GET_appt, redirect, bind.
    now rewrite (bound_param _ _ _ Hne), Hb.
  - intros. unfold BookingRoutes.GET_magic, BookingRoutes.getByMagicLink.
    now rewrite (bound_param _ _ _ Hne), Hb.
  - unfold GET_preview. now rewrite guarded_route_rejects.
  - intros. unfold POST_track. now rewrite guarded_route_rejects.
  - unfold preview, bind. now rewrite (bound_param _ _ _ Hne), Hb.
  - intros. unfold track, bind. now rewrite (bound_param _ _ _ Hne), Hb.
Qed.

(** A well-formed token that no booking of the sample store carries. *)
Lemma unknown_token_changes_nothing_witness :
  GET_appt env0 "Zq3vT8_unknown" 2000000 2000001 "e-3" req0 store0
  = (Redirect 302 "https://usetextbook.com/booking/error?reason=not_found", store0)
  /\ (POST_track "Zq3vT8_unknown" (mkTrack None None None) 2000000 "e-3" req0 store0).2
     = store0.
Proof.
  assert (Hne : "Zq3vT8_unknown" <> "") by discriminate.
  destruct (unknown_token_changes_nothing env0 "Zq3vT8_unknown" req0 store0 Hne eq_refl)
    as (Hr & _ & _ & Ht & _).
  split; [apply Hr|apply Ht].
Defined.

(** C3 as stated fails on the preview and track routes: the token "abc"
    finds no booking and is too short for [validateNanoId], so both routes
    answer 400 "Invalid magic link ID", not the 404 of the not-found
    exit. *)
Lemma malformed_unknown_token_is_400 :
  findUnique Booking.magicLinkId "abc" store0 = None
  /\ Validation.nanoidPattern "abc" = false
  /\ (GET_preview env0 "abc" req0 store0).1
     = Json 400 (Failure "Invalid magic link ID"
                   "The provided magic link ID is not in a valid format")
  /\ (POST_track "abc" (mkTrack None None None) 2000000 "e-3" req0 store0).1
     = Json 400 (Failure "Invalid magic link ID"
                   "The provided magic link ID is not in a valid format")
  /\ (GET_preview env0 "abc" req0 store0).1 <> not_found
  /\ (POST_track "abc" (mkTrack None None None) 2000000 "e-3" req0 store0).1
     <> not_found.
Proof.
  repeat split; try reflexivity; discriminate.
Qed.

End UnknownToken.

(** ** Expiry on the resolver paths *)

Section Expiry.
Import Prisma.

(** The magic-API route fails closed: past the expiration it answers 410
    and writes nothing. *)
Lemma getByMagicLink_expired tok nowCheck nowTouch req s b t :
  tok <> "" ->
  findUnique Booking.magicLinkId tok s = Some b ->
  Booking.magicLinkExpiresAt b = Some t ->
  t < nowCheck ->
  BookingRoutes.GET_magic tok nowCheck nowTouch req s
  = (Json 410 (Failure "Magic link expired"
                 "This magic link has expired and is no longer valid."), s).
Proof.
  intros Hne Hb Ht Hlt. unfold BookingRoutes.GET_magic, BookingRoutes.getByMagicLink.
  rewrite (bound_param _ _ _ Hne), Hb. unfold BookingRoutes.past_expiry. rewrite Ht.
  destruct (Z.gtb_spec nowCheck t); [reflexivity|lia].
Qed.

(** C1 at the sample booking, which expires at instant [4600000], one
    second later: the magic-API route answers 410 "Magic link expired";
    the preview handler has no expiry test and answers 200 with the
    preview; the preview route, whose validator rejects every request,
    answers 400. Neither answer of the preview path is the 410 the claim
    (and MAGIC_LINK_EXPIRATION.md) requires. *)
Theorem preview_has_no_expiry_gate :
  Booking.magicLinkExpiresAt booking0 = Some 4600000
  /\ MagicLink.isMagicLinkExpired (Booking.magicLinkExpiresAt booking0) 4601000 = true
  /\ BookingRoutes.GET_magic "V1StGXR8_Z5j" 4601000 4601001 req0 store0
     = (Json 410 (Failure "Magic link expired"
                    "This magic link has expired and is no longer valid."), store0)
  /\ (exists d,
        RedirectRoutes.preview env0 (RedirectRoutes.bind "V1StGXR8_Z5j" req0) store0
        = (Json 200 (Preview d), store0))
  /\ RedirectRoutes.GET_preview env0 "V1StGXR8_Z5j" req0 store0
     = (Json 400 (Failure "Invalid magic link ID"
                    "The provided magic link ID is not in a valid format"), store0).
Proof.
  split; [reflexivity|]. split; [reflexivity|]. split; [reflexivity|].
  split; [eexists; reflexivity|reflexivity].
Qed.

End Expiry.

(** ** Tracking *)

Section Tracking.
Import Prisma RedirectRoutes.

(** The track handler, reached with the token of booking [b] and an event
    type of at most 100 characters: one analytics row is appended, tagged
    with the supplied event or with "interaction", and the bookings table
    is not written. *)
Lemma track_known tok body nowEvent evId req s b :
  tok <> "" ->
  findUnique Booking.magicLinkId tok s = Some b ->
  Column.varchar 100 (or_default (event body) "interaction") = true ->
  track body nowEvent evId (bind tok req) s
  = (Json 200 (Tracked "Event tracked successfully."),
     mkStore (bookings s)
       (analytics s ++
        [BookingAnalytics.mk evId (Booking.id b)
           (or_default (event body) "interaction")
           (or_else (userAgent body) (or_else (headers req !! "user-agent") None))
           (or_else (ipAddress body) (or_else (ip req) None))
           nowEvent])%list).
Proof.
  intros Hne Hb Hfit. unfold track, bind.
  rewrite (bound_param _ _ _ Hne), Hb. unfold createAnalytics.
  cbn [BookingAnalytics.eventType]. now rewrite Hfit.
Qed.

Lemma track_default_event userAgent ipAddress :
  or_default (event (mkTrack None userAgent ipAddress)) "interaction" = "interaction".
Proof. reflexivity. Qed.

(** C9 on the code: the route POST /:magicLinkId/track answers 400
    "Invalid magic link ID" to every request and inserts nothing, because
    [validateNanoId] reads a path parameter the route does not bind; for
    the known token of the sample store no analytics row is added. *)
Theorem POST_track_inserts_nothing :
  (forall tok body nowEvent evId req s,
      POST_track tok body nowEvent evId req s
      = (Json 400 (Failure "Invalid magic link ID"
                     "The provided magic link ID is not in a valid format"), s))
  /\ findUnique Booking.magicLinkId "V1StGXR8_Z5j" store0 = Some booking0
  /\ Validation.nanoidPattern "V1StGXR8_Z5j" = true
  /\ analytics (POST_track "V1StGXR8_Z5j" (mkTrack None None None) 2000000 "e-3"
                  req0 store0).2
     = analytics store0.
Proof.
  split; [|repeat split].
  intros. unfold POST_track. apply guarded_route_rejects.
Qed.

End Tracking.

(** ** The analytics listing *)

Section Listing.
Import Prisma RedirectRoutes.

#[local] Instance newer_total : Total newer.
Proof. intros a b. unfold newer. lia. Qed.

#[local] Instance newer_trans : Transitive newer.
Proof. intros a b c. unfold newer. lia. Qed.

(** What the query [include: { analytics: { orderBy, take } }] returns:
    rows of the booking, newest first, at most 50, none of the rows left
    out being newer than a row returned, and all rows of the booking when
    there are at most 50. *)
Lemma includeAnalytics_spec (uuid : string) (s : Store) :
  let mine := filter (fun e => BookingAnalytics.bookingId e = uuid) (analytics s) in
  let l := includeAnalytics uuid s in
  StronglySorted newer l
  /\ (length l <= 50)%nat
  /\ (forall e, e ∈ l -> e ∈ analytics s /\ BookingAnalytics.bookingId e = uuid)
  /\ (forall e e', e ∈ l -> e' ∈ mine -> e' ∉ l -> newer e e')
  /\ ((length mine <= 50)%nat -> l ≡ₚ mine).
Proof.
  intros mine l. unfold includeAnalytics in l. fold mine in l.
  set (all := merge_sort newer mine) in l.
  assert (Hss : StronglySorted newer (take 50 all ++ drop 50 all)).
  { rewrite take_drop. apply StronglySorted_merge_sort; apply _. }
  assert (Hperm : all ≡ₚ mine) by apply merge_sort_Permutation.
  assert (Hin : forall e, e ∈ l -> e ∈ mine).
  { intros e He. rewrite <- Hperm, <- (take_drop 50 all).
    apply elem_of_app. now left. }
  split; [exact (StronglySorted_app_1_l _ _ _ Hss)|].
  split; [subst l; rewrite length_take; lia|].
  split; [|split].
  - intros e He. apply Hin in He. subst mine.
    apply list_elem_of_filter in He. tauto.
  - intros e e' He He' Hnot. apply (StronglySorted_app_1_elem_of _ _ _ _ _ Hss He).
    rewrite <- Hperm, <- (take_drop 50 all) in He'.
    apply elem_of_app in He' as [He'|He']; [contradiction|exact He'].
  - intros Hlen. subst l. rewrite take_ge; [exact Hperm|].
    now rewrite Hperm.
Qed.

Lemma event_view_sorted (l : list BookingAnalytics.t) :
  StronglySorted newer l ->
  StronglySorted (fun x y => e_timestamp y <= e_timestamp x) (map event_view l).
Proof.
  induction 1 as [|e l _ IH Hall]; simpl; constructor; [exact IH|].
  clear IH. induction Hall; simpl; constructor; assumption.
Qed.

(** The analytics handler, reached with the token of booking [b]. *)
Lemma analyticsOf_known tok req s b :
  tok <> "" ->
  findUnique Booking.magicLinkId tok s = Some b ->
  exists events,
    analyticsOf (bind tok req) s
    = (Json 200 (Analytics (mkAnalyticsView (Booking.bookingId b)
                              (Booking.accessCount b) (Booking.lastAccessedAt b)
                              events)), s)
    /\ events = map event_view (includeAnalytics (Booking.id b) s)
    /\ StronglySorted (fun x y => e_timestamp y <= e_timestamp x) events
    /\ (length events <= 50)%nat.
Proof.
  intros Hne Hb. eexists. split; [|split; [reflexivity|]].
  - unfold analyticsOf, bind. now rewrite (bound_param _ _ _ Hne), Hb.
  - destruct (includeAnalytics_spec (Booking.id b) s) as (Hs & Hl & _).
    split; [now apply event_view_sorted|]. now rewrite length_map.
Qed.

(** C8 on the code: the route GET /:magicLinkId/analytics answers 400
    "Invalid magic link ID" to every request, because [validateNanoId]
    reads a path parameter the route does not bind; the two events of the
    sample booking, whose token is well formed, are not listed. *)
Theorem GET_analytics_lists_nothing :
  (forall tok req s,
      GET_analytics tok req s
      = (Json 400 (Failure "Invalid magic link ID"
                     "The provided magic link ID is not in a valid format"), s))
  /\ findUnique Booking.magicLinkId "V1StGXR8_Z5j" store0 = Some booking0
  /\ Validation.nanoidPattern "V1StGXR8_Z5j" = true
  /\ length (includeAnalytics (Booking.id booking0) store0) = 2%nat
  /\ forall d, (GET_analytics "V1StGXR8_Z5j" req0 store0).1 <> Json 200 (Analytics d).
Proof.
  split; [|split; [reflexivity|split; [reflexivity|split; [reflexivity|]]]].
  - intros. unfold GET_analytics. apply guarded_route_rejects.
  - intros d. discriminate.
Qed.

End Listing.

(** * Further properties of the code *)

(** ** The expiration policy, continued *)

Section PolicyMore.
Import MagicLink.

(** X1: no time is left ([getTimeUntilExpiration] returns 0, and
    [formatTimeRemaining] answers "Expired") exactly when the link is
    expired or the clock stands on the expiration instant itself; at that
    instant [isMagicLinkExpired] still answers false, so the two functions
    disagree there and nowhere else. *)
Theorem no_time_left_iff_expired_or_boundary :
  (forall e now,
      getTimeUntilExpiration e now = Finite 0
      <-> isMagicLinkExpired e now = true \/ e = Some now)
  /\ (forall e now,
        formatTimeRemaining e now = "Expired"
        <-> isMagicLinkExpired e now = true \/ e = Some now)
  /\ (forall t,
        formatTimeRemaining (Some t) t = "Expired"
        /\ isMagicLinkExpired (Some t) t = false).
Proof.
  assert (H1 : forall e now,
             getTimeUntilExpiration e now = Finite 0
             <-> isMagicLinkExpired e now = true \/ e = Some now).
  { intros [t|] now; simpl.
    - destruct (Z.gtb_spec now t) as [Hgt|Hle]; split.
      + now left.
      + intros _. f_equal. lia.
      + intros E. injection E as E. right. f_equal. lia.
      + intros [E|E]; [discriminate|]. injection E as ->. f_equal. lia.
    - split; [discriminate|]. intros [E|E]; discriminate. }
  split; [exact H1|]. split.
  - intros [t|] now.
    + rewrite <- H1. rewrite formatTimeRemaining_cases.
      unfold getTimeUntilExpiration. cbv zeta.
      destruct (Z.leb_spec t now) as [Hle|Hlt].
      * replace (Z.max 0 (t - now)) with 0 by lia. tauto.
      * split.
        -- destruct (now + 3600000 <=? t); intros E; exfalso;
             [exact (hours_form_not_Expired _ _ E)
             |exact (minutes_form_not_Expired _ E)].
        -- intros E. injection E as E. lia.
    + simpl. split; [discriminate|]. intros [E|E]; discriminate.
  - intros t. split.
    + rewrite formatTimeRemaining_cases.
      destruct (Z.leb_spec t t); [reflexivity|lia].
    + simpl. destruct (Z.gtb_spec t t); [lia|reflexivity].
Qed.

(** X2: a link whose expiration was computed at instant [now] is expired
    at a later instant [now'] exactly when more than one hour (3600000 ms)
    has passed; until then [getTimeUntilExpiration] counts the
    milliseconds left of that hour. *)
Theorem fresh_link_lives_one_hour :
  forall now now',
    (isMagicLinkExpired (Some (calculateMagicLinkExpiration now)) now' = true
     <-> now' > now + 3600000)
    /\ getTimeUntilExpiration (Some (calculateMagicLinkExpiration now)) now'
       = Finite (if now' >? now + 3600000 then 0 else now + 3600000 - now').
Proof.
  intros now now'. unfold calculateMagicLinkExpiration. simpl.
  change (60 * 60 * 1000) with 3600000.
  destruct (Z.gtb_spec now' (now + 3600000)); split;
    try (split; intros; (congruence || lia)); f_equal; lia.
Qed.

(** X3: for an expiration still ahead, [formatTimeRemaining] prints the
    whole minutes left, split into hours [h] and minutes [m] with
    [0 <= m < 60] and [60 * h + m] the number of whole minutes; the hours
    are left out exactly when [h] is 0, and seconds are dropped (less than
    a minute left prints "0m"). *)
Theorem formatTimeRemaining_components (t now : Z) :
  now < t ->
  exists h m,
    0 <= h /\ 0 <= m < 60
    /\ 60 * h + m = (t - now) / 60000
    /\ formatTimeRemaining (Some t) now
       = if h =? 0 then template m +:+ "m"
         else template h +:+ "h " +:+ template m +:+ "m".
Proof.
  intros Hlt. set (minutes := (t - now) / 60000).
  assert (Hmin : 0 <= minutes) by (apply Z.div_pos; lia).
  exists (minutes / 60), (Z.rem minutes 60).
  rewrite Z.rem_mod_nonneg by lia.
  pose proof (Z.mod_pos_bound minutes 60 ltac:(lia)) as Hm.
  pose proof (Z.div_mod minutes 60 ltac:(lia)) as Hdm.
  split; [apply Z.div_pos; lia|]. split; [exact Hm|]. split; [lia|].
  rewrite formatTimeRemaining_cases. fold minutes. cbv zeta.
  destruct (Z.leb_spec t now); [lia|].
  rewrite Z.rem_mod_nonneg by lia.
  destruct (Z.leb_spec (now + 3600000) t) as [Hh|Hh].
  - assert (60 <= minutes) by (apply Z.div_le_lower_bound; lia).
    assert (1 <= minutes / 60) by (apply Z.div_le_lower_bound; lia).
    destruct (Z.eqb_spec (minutes / 60) 0); [lia|reflexivity].
  - assert (minutes < 60) by (apply Z.div_lt_upper_bound; lia).
    rewrite (Z.div_small minutes 60) by lia.
    rewrite (Z.mod_small minutes 60) by lia. reflexivity.
Qed.

(** Two hours, one minute and one millisecond ahead. *)
Lemma formatTimeRemaining_components_witness :
  exists h m,
    0 <= h /\ 0 <= m < 60
    /\ 60 * h + m = (7260001 - 0) / 60000
    /\ formatTimeRemaining (Some 7260001) 0
       = if h =? 0 then template m +:+ "m"
         else template h +:+ "h " +:+ template m +:+ "m".
Proof.
  apply (formatTimeRemaining_components 7260001 0). lia.
Defined.

End PolicyMore.

(** ** The validators, continued *)

Section ValidatorMore.
Import Validation.

Lemma when_nil (c : bool) (msg : string) : when c msg = [] <-> c = false.
Proof. unfold when. destruct c; split; congruence. Qed.

Lemma validate_next_iff (body : gmap string JsVal) :
  validatePaymentStatusUpdate body = Next <-> paymentStatusErrors body = [].
Proof.
  unfold validatePaymentStatusUpdate.
  destruct (paymentStatusErrors body); simpl; split; congruence.
Qed.

Lemma includes_In (l : list string) (s : string) :
  includes l (JStr s) = true <-> In s l.
Proof.
  unfold includes. rewrite existsb_exists. simpl. split.
  - intros (x & Hin & E). apply String.eqb_eq in E. now subst.
  - intros Hin. exists s. split; [exact Hin|apply String.eqb_refl].
Qed.

Lemma values_nonempty (s : string) :
  In s PaymentStatus.values -> (s =? "")%string = false.
Proof.
  intros Hin. simpl in Hin. decompose [or] Hin; subst; try reflexivity; contradiction.
Qed.

Lemma status_clauses (ps : JsVal) :
  (negb (truthy ps) || negb (typeof ps =? "string")%string = false
   /\ truthy ps && negb (includes PaymentStatus.values ps) = false)
  <-> exists s, ps = JStr s /\ In s PaymentStatus.values.
Proof.
  destruct ps as [| |b|x|s|o].
  - split; [intros [H _]; discriminate H|intros (s' & E & _); discriminate E].
  - split; [intros [H _]; discriminate H|intros (s' & E & _); discriminate E].
  - split; [intros [H _]; destruct b; discriminate H
           |intros (s' & E & _); discriminate E].
  - split; [intros [H _]; destruct x; discriminate H
           |intros (s' & E & _); discriminate E].
  - pose proof (includes_In PaymentStatus.values s) as Hinc.
    pose proof (values_nonempty s) as Hne.
    cbn [truthy typeof]. rewrite String.eqb_refl. cbn [negb].
    rewrite orb_false_r.
    destruct (includes PaymentStatus.values (JStr s));
      destruct (s =? "")%string; cbn [negb andb]; split.
    + intros [H _]. discriminate H.
    + intros (s' & E & Hin). injection E as <-.
      specialize (Hne Hin). discriminate Hne.
    + intros _. exists s. split; [reflexivity|now apply Hinc].
    + tauto.
    + intros [H _]. discriminate H.
    + intros (s' & E & Hin). injection E as <-.
      specialize (Hne Hin). discriminate Hne.
    + intros [_ H]. discriminate H.
    + intros (s' & E & Hin). injection E as <-.
      apply Hinc in Hin. discriminate Hin.
  - split; [intros [H _]; discriminate H|intros (s' & E & _); discriminate E].
Qed.

Lemma paymentId_clause (pid : JsVal) :
  truthy pid && negb (typeof pid =? "string")%string = false
  <-> truthy pid = false \/ typeof pid = "string".
Proof.
  destruct pid as [| |b|x|s|o]; cbn [truthy typeof].
  - intuition.
  - intuition.
  - destruct b; cbn; intuition discriminate.
  - destruct x; cbn; intuition discriminate.
  - rewrite String.eqb_refl, andb_false_r. intuition.
  - cbn. intuition discriminate.
Qed.

Lemma currency_clauses (cu : JsVal) :
  (truthy cu && negb (typeof cu =? "string")%string = false
   /\ truthy cu && negb (test_currency cu) = false)
  <-> truthy cu = false \/ exists c, cu = JStr c /\ currencyPattern c = true.
Proof.
  destruct cu as [| |b|x|s|o]; cbn [truthy typeof test_currency].
  - split; [now left|intuition].
  - split; [now left|intuition].
  - destruct b; cbn; split.
    + intros [H _]. discriminate H.
    + intros [H|(c & E & _)]; [discriminate H|discriminate E].
    + intros _. now left.
    + intuition.
  - destruct x; cbn; split;
      try (intros _; now left); try (intros [H _]; discriminate H);
      try (intros [H|(c & E & _)]; [discriminate H|discriminate E]);
      intuition.
  - rewrite String.eqb_refl, andb_false_r.
    destruct (negb (s =? "")%string); cbn [andb]; split.
    + intros [_ H]. apply negb_false_iff in H. right. now exists s.
    + intros [H|(c & E & Hc)]; [discriminate H|]. injection E as <-.
      rewrite Hc. intuition.
    + intros _. now left.
    + intuition.
  - cbn. split; [intros [H _]; discriminate H|].
    intros [H|(c & E & _)]; [discriminate H|discriminate E].
Qed.

Lemma completed_needs (ps : JsVal) (c : bool) :
  strict_eq_string ps "COMPLETED" && c = false
  <-> (ps = JStr "COMPLETED" -> c = false).
Proof.
  destruct ps as [| |b|x|s|o]; cbn [strict_eq_string andb];
    try (split; [intros _ E; discriminate E|reflexivity]).
  destruct (String.eqb_spec s "COMPLETED") as [->|Hne]; cbn [andb].
  - split; [tauto|intros H; now apply H].
  - split; [intros _ E; congruence|reflexivity].
Qed.

Lemma defined_true (v : JsVal) : defined v = true <-> v <> JUndefined.
Proof. destruct v; simpl; split; congruence. Qed.

(** X4: the payment-update validator calls [next()] exactly when
    [paymentStatus] is one of the five status names, [paymentId] is falsy
    or a string, [amount] is absent or a number that is not below 0,
    [currency] is falsy or three capital letters, a COMPLETED status comes
    with a truthy [paymentId] and an [amount], and an [amount] comes with a
    truthy [currency]; in every other case it answers 400 with the list of
    messages. *)
Theorem validatePaymentStatusUpdate_accepts_iff (body : gmap string JsVal) :
  (validatePaymentStatusUpdate body = Next
   <-> (exists s, field body "paymentStatus" = JStr s /\ In s PaymentStatus.values)
       /\ (truthy (field body "paymentId") = false
           \/ typeof (field body "paymentId") = "string")
       /\ (field body "amount" = JUndefined
           \/ exists x, field body "amount" = JNum x /\ SFltb x js_zero = false)
       /\ (truthy (field body "currency") = false
           \/ exists c, field body "currency" = JStr c /\ currencyPattern c = true)
       /\ (field body "paymentStatus" = JStr "COMPLETED"
           -> truthy (field body "paymentId") = true
              /\ field body "amount" <> JUndefined)
       /\ (field body "amount" <> JUndefined
           -> truthy (field body "currency") = true))
  /\ (validatePaymentStatusUpdate body <> Next
      -> validatePaymentStatusUpdate body
         = Respond (Json 400 (Invalid "Validation failed"
                                "Please correct the following errors:"
                                (paymentStatusErrors body)))).
Proof.
  split.
  - rewrite validate_next_iff. unfold paymentStatusErrors. cbv zeta.
    rewrite !app_nil, !when_nil, amountErrors_nil.
    pose proof (status_clauses (field body "paymentStatus")) as L1.
    pose proof (paymentId_clause (field body "paymentId")) as L3.
    pose proof (currency_clauses (field body "currency")) as L5.
    pose proof (completed_needs (field body "paymentStatus")
                  (negb (truthy (field body "paymentId")))) as L7.
    pose proof (completed_needs (field body "paymentStatus")
                  (negb (defined (field body "amount")))) as L8.
    pose proof (defined_true (field body "amount")) as Ld.
    assert (E8 : match field body "amount" with JUndefined => true | _ => false end
                 = negb (defined (field body "amount")))
      by now destruct (field body "amount").
    assert (E9 : match field body "amount" with JUndefined => false | _ => true end
                 = defined (field body "amount"))
      by now destruct (field body "amount").
    rewrite E8, E9. rewrite !negb_false_iff in L7, L8.
    destruct (defined (field body "amount")) eqn:Hd;
      destruct (truthy (field body "currency")) eqn:Hc; simpl;
      intuition congruence.
  - unfold validatePaymentStatusUpdate.
    destruct (paymentStatusErrors body); simpl; congruence.
Qed.

End ValidatorMore.

Section ValidatorRules.
Import Validation.

(** X5: the business rules of the payment-update validator are reported
    one by one: a COMPLETED status without a truthy [paymentId], or
    without an [amount], and an [amount] without a truthy [currency], each
    put their own message in the list, and the request is answered 400
    with that list instead of reaching the handler. *)
Theorem payment_business_rules (body : gmap string JsVal) :
  (field body "paymentStatus" = JStr "COMPLETED" ->
   truthy (field body "paymentId") = false ->
   In "paymentId is required when payment status is completed"
     (paymentStatusErrors body))
  /\ (field body "paymentStatus" = JStr "COMPLETED" ->
      field body "amount" = JUndefined ->
      In "amount is required when payment status is completed"
        (paymentStatusErrors body))
  /\ (field body "amount" <> JUndefined ->
      truthy (field body "currency") = false ->
      In "currency is required when amount is provided" (paymentStatusErrors body))
  /\ (forall msg,
        In msg (paymentStatusErrors body) ->
        validatePaymentStatusUpdate body
        = Respond (Json 400 (Invalid "Validation failed"
                               "Please correct the following errors:"
                               (paymentStatusErrors body)))).
Proof.
  split; [|split; [|split]].
  - intros Hps Hid. unfold paymentStatusErrors. cbv zeta.
    rewrite Hps, Hid. rewrite !in_app_iff, !in_when. do 6 right. left.
    split; reflexivity.
  - intros Hps Ham. unfold paymentStatusErrors. cbv zeta.
    rewrite Hps, Ham. rewrite !in_app_iff, !in_when. do 7 right. left.
    split; reflexivity.
  - intros Ham Hcu. unfold paymentStatusErrors. cbv zeta.
    rewrite Hcu. rewrite !in_app_iff, !in_when. do 8 right.
    split; [|reflexivity]. now destruct (field body "amount").
  - intros msg Hin. unfold validatePaymentStatusUpdate.
    destruct (paymentStatusErrors body); [contradiction|reflexivity].
Qed.

(** A body [{ paymentStatus: "COMPLETED" }], with neither [paymentId] nor
    [amount]. *)
Lemma payment_business_rules_witness :
  In "paymentId is required when payment status is completed"
    (paymentStatusErrors {[ "paymentStatus" := JStr "COMPLETED" ]})
  /\ In "amount is required when payment status is completed"
       (paymentStatusErrors {[ "paymentStatus" := JStr "COMPLETED" ]}).
Proof.
  split.
  - apply (proj1 (payment_business_rules _)); reflexivity.
  - apply (proj1 (proj2 (payment_business_rules _))); reflexivity.
Defined.

Lemma matches_length (classes : list (ascii -> bool)) :
  forall s, matches classes s = true -> String.length s = length classes.
Proof.
  induction classes as [|p classes IH]; intros [|c s]; simpl; try discriminate.
  - reflexivity.
  - intros H. apply andb_true_iff in H as [_ H]. f_equal. now apply IH.
Qed.

(** X6: a string that [validateUUID]'s pattern accepts has 36 characters,
    so [validateNanoId]'s pattern (10 to 21 characters) rejects it, and a
    token the nanoid pattern accepts is no UUID: an id of one kind never
    passes the validator of the other. [validateUUID] calls [next()] on a
    route that binds [uuid] exactly when the bound string has the version-4
    shape, and answers 400 "Invalid UUID" when no [uuid] is bound. *)
Theorem uuid_and_nanoid_patterns_disjoint :
  (forall s, uuidPattern s = true -> String.length s = 36%nat /\ nanoidPattern s = false)
  /\ (forall s, nanoidPattern s = true -> uuidPattern s = false)
  /\ (forall id req,
        validateUUID (with_params {[ "uuid" := id ]} req) = Next
        <-> uuidPattern id = true)
  /\ (forall req,
        params req !! "uuid" = None ->
        validateUUID req
        = Respond (Json 400 (Failure "Invalid UUID"
                               "The provided UUID is not in a valid format"))).
Proof.
  assert (H1 : forall s, uuidPattern s = true -> String.length s = 36%nat).
  { intros s H. now apply matches_length in H. }
  split; [|split; [|split]].
  - intros s H. split; [now apply H1|].
    unfold nanoidPattern. rewrite (H1 s H). reflexivity.
  - intros s H. destruct (uuidPattern s) eqn:E; [|reflexivity].
    unfold nanoidPattern in H. rewrite (H1 s E) in H. discriminate H.
  - intros id req. unfold validateUUID. simpl. rewrite lookup_singleton_eq. simpl.
    destruct (uuidPattern id) eqn:E.
    + destruct id; [discriminate E|]. simpl. tauto.
    + rewrite orb_true_r. split; discriminate.
  - intros req H. unfold validateUUID. now rewrite H.
Qed.

(** The primary key of the sample booking. *)
Lemma uuid_and_nanoid_patterns_disjoint_witness :
  String.length "7b0c1c1e-5c1a-4a6e-9f43-0d2f6f1f2a10" = 36%nat
  /\ nanoidPattern "7b0c1c1e-5c1a-4a6e-9f43-0d2f6f1f2a10" = false.
Proof.
  apply (proj1 uuid_and_nanoid_patterns_disjoint). reflexivity.
Defined.

End ValidatorRules.

(** ** What every handler keeps *)

Ltac break_handler :=
  repeat match goal with
    | |- context [match or_else ?a ?b with _ => _ end] => destruct (or_else a b)
    | |- context [match Prisma.findUnique ?k ?v ?s with _ => _ end] =>
        destruct (Prisma.findUnique k v s)
    | |- context [if BookingRoutes.past_expiry ?b ?n then _ else _] =>
        destruct (BookingRoutes.past_expiry b n)
    | |- context [match Prisma.update_by_id ?v ?f ?d ?s with _ => _ end] =>
        let E := fresh "E" in
        destruct (Prisma.update_by_id v f d s) as [? ?| |] eqn:E;
        [apply update_by_id_written in E as (? & _ & E)| |]
    | |- context [match Prisma.update ?k ?v ?f ?d ?s with _ => _ end] =>
        let E := fresh "E" in destruct (Prisma.update k v f d s) as [? ?| |] eqn:E
    | |- context [match Prisma.create ?r ?s with _ => _ end] =>
        let E := fresh "E" in destruct (Prisma.create r s) as [?|] eqn:E
    | |- context [Prisma.createAnalytics ?r ?s] =>
        let EA := fresh "EA" in
        destruct (Prisma.createAnalytics r s) as [?|] eqn:EA;
        [apply createAnalytics_some in EA as [? ?]|]
    end; cbn [fst snd from_option id].

Ltac unfold_handlers :=
  unfold handle, BookingRoutes.create, BookingRoutes.confirm, BookingRoutes.payment,
    BookingRoutes.getById, BookingRoutes.getByMagicLink, RedirectRoutes.redirect,
    RedirectRoutes.preview, RedirectRoutes.track, RedirectRoutes.analyticsOf.

Section StoreShape.
Import Prisma.

Lemma update_shape key k fits data s b' s' :
  update key k fits data s = Written b' s' ->
  analytics s' = analytics s
  /\ forall A (f : Booking.t -> A),
       (forall x, f (data x) = f x) -> map f (bookings s') = map f (bookings s).
Proof.
  unfold update.
  destruct (update_rows key k data (bookings s)) as [[c rows]|] eqn:E; [|discriminate].
  destruct (fits c); [|discriminate].
  intros [= <- <-]. split; [reflexivity|].
  intros A f Hf. exact (update_rows_keeps f _ _ _ _ _ _ Hf E).
Qed.

Lemma create_shape row s s' :
  create row s = Some s' ->
  s' = mkStore (bookings s ++ [row]) (analytics s)
  /\ (forall b, In b (bookings s) ->
        Booking.id b <> Booking.id row
        /\ Booking.bookingId b <> Booking.bookingId row
        /\ Booking.magicLinkId b <> Booking.magicLinkId row).
Proof.
  unfold create. destruct (existsb _ _) eqn:E; [discriminate|].
  destruct (_ && _); [|discriminate].
  intros [= <-]. split; [reflexivity|].
  intros b Hin.
  assert (Hb : ((Booking.id b =? Booking.id row)%string
                || (Booking.bookingId b =? Booking.bookingId row)%string
                || (Booking.magicLinkId b =? Booking.magicLinkId row)%string) = false).
  { apply not_true_is_false. intros Ht.
    assert (Hex : existsb
                    (fun b0 => (Booking.id b0 =? Booking.id row)%string
                               || (Booking.bookingId b0 =? Booking.bookingId row)%string
                               || (Booking.magicLinkId b0 =? Booking.magicLinkId row)%string)
                    (bookings s) = true)
      by (apply existsb_exists; now exists b).
    congruence. }
  apply orb_false_iff in Hb as [Hb H3]. apply orb_false_iff in Hb as [H1 H2].
  repeat split; now apply String.eqb_neq.
Qed.

End StoreShape.

Section RowRelation.
Import Prisma.

Variable R : Booking.t -> Booking.t -> Prop.
Hypothesis R_refl : forall b, R b b.
Hypothesis R_trans : forall a b c, R a b -> R b c -> R a c.
Hypothesis R_access : forall now b, R b (data_access now b).
Hypothesis R_confirm : forall now b, R b (data_confirm now b).
Hypothesis R_payment :
  forall ps pid am cu now b, R b (data_payment ps pid am cu now b).

Lemma Forall2_R_refl rows : Forall2 R rows rows.
Proof. induction rows; constructor; auto. Qed.

Lemma related_refl s : rows_related R s s.
Proof.
  exists (bookings s), []. split; [now rewrite app_nil_r|apply Forall2_R_refl].
Qed.

Lemma related_trans s1 s2 s3 :
  rows_related R s1 s2 -> rows_related R s2 s3 -> rows_related R s1 s3.
Proof.
  intros (r1 & a1 & E1 & F1) (r2 & a2 & E2 & F2). rewrite E1 in F2.
  apply Forall2_app_inv_l in F2 as (r2a & r2b & Fa & Fb & ->).
  exists r2a, (r2b ++ a2)%list. split; [now rewrite E2, app_assoc|].
  clear -F1 Fa R_trans. revert r2a Fa.
  induction F1 as [|x y l l' Hxy _ IH]; intros r2a Fa.
  - inversion Fa. constructor.
  - inversion Fa as [|? z ? l'' Hyz Fl]; subst. constructor.
    + exact (R_trans _ _ _ Hxy Hyz).
    + now apply IH.
Qed.

Lemma update_rows_related key k data rows b' rows' :
  (forall x, R x (data x)) ->
  update_rows key k data rows = Some (b', rows') ->
  Forall2 R rows rows'.
Proof.
  intros Hdata. revert b' rows'.
  induction rows as [|r rows IH]; intros b' rows'; [discriminate|].
  simpl. destruct (key r =? k)%string.
  - intros [= <- <-]. constructor; [apply Hdata|apply Forall2_R_refl].
  - destruct (update_rows key k data rows) as [[c rest]|] eqn:E; [|discriminate].
    intros [= <- <-]. constructor; [apply R_refl|now apply (IH c)].
Qed.

Lemma update_related key k fits data s b' s' :
  (forall x, R x (data x)) ->
  update key k fits data s = Written b' s' -> rows_related R s s'.
Proof.
  unfold update. intros Hdata.
  destruct (update_rows key k data (bookings s)) as [[c rows]|] eqn:E; [|discriminate].
  destruct (fits c); [|discriminate].
  intros [= <- <-]. exists rows, []. split; [simpl; now rewrite app_nil_r|].
  exact (update_rows_related _ _ _ _ _ _ Hdata E).
Qed.

Lemma related_same_bookings s s' s'' :
  bookings s'' = bookings s' -> rows_related R s s' -> rows_related R s s''.
Proof. intros E (rows & added & H & F). exists rows, added. now rewrite E. Qed.

Lemma handle_related h req s : rows_related R s (handle h req s).2.
Proof.
  destruct h; unfold_handlers; break_handler;
    try apply related_refl;
    try (eapply update_related; [|eassumption]; auto).
  - apply create_shape in E as [-> _].
    exists (bookings s), [Booking.mk uuid
                            ("booking_" +:+ template nowId +:+ "_" +:+ rnd) nano
                            (BookingRoutes.userName body) (BookingRoutes.userPhone body)
                            (BookingRoutes.appointmentType body)
                            (BookingRoutes.appointmentDate body)
                            (default "{}" (BookingRoutes.bookingDetails body))
                            BookingStatus.PENDING_CONFIRMATION PaymentStatus.PENDING
                            None None None nowRow None None None
                            (Some (MagicLink.calculateMagicLinkExpiration nowExp)) 0].
    split; [reflexivity|apply Forall2_R_refl].
  - eapply related_same_bookings; [eassumption|].
    eapply update_related; [|eassumption]; auto.
  - eapply related_same_bookings; [|apply related_refl]. assumption.
Qed.

Lemma serve_related st s : rows_related R s (serve st s).2.
Proof.
  destruct st as [[mw h] req]. unfold serve, route.
  destruct (mw req); [apply related_refl|apply handle_related].
Qed.

Lemma run_related steps : forall s, rows_related R s (run steps s).
Proof.
  induction steps as [|st steps IH]; intros s; [apply related_refl|].
  unfold run. simpl. apply (related_trans _ (serve st s).2).
  - apply serve_related.
  - apply IH.
Qed.

Lemma run_related_lookup steps s (i : nat) b :
  bookings s !! i = Some b ->
  exists b', bookings (run steps s) !! i = Some b' /\ R b b'.
Proof.
  intros Hi. destruct (run_related steps s) as (rows & added & E & F).
  destruct (Forall2_lookup_l _ _ _ _ _ F Hi) as (b' & Hi' & Hr).
  exists b'. rewrite E. split; [|exact Hr].
  apply lookup_app_l_Some. exact Hi'.
Qed.

End RowRelation.

Section Invariants.
Import Prisma.

Lemma row_frame_refl b : row_frame b b.
Proof. unfold row_frame. repeat split; auto; lia. Qed.

Lemma row_frame_trans a b c : row_frame a b -> row_frame b c -> row_frame a c.
Proof.
  unfold row_frame.
  intros (?&?&?&?&?&?&?&?&?&?&Hs1&?&?&?&?) (?&?&?&?&?&?&?&?&?&?&Hs2&?&?&?&?).
  repeat split; try congruence; try lia; try tauto.
  destruct Hs1 as [Hs1|Hs1], Hs2 as [Hs2|Hs2]; rewrite Hs2; auto.
Qed.

Lemma row_frame_access now b : row_frame b (data_access now b).
Proof. unfold row_frame. simpl. repeat split; auto; try discriminate; lia. Qed.

Lemma row_frame_confirm now b : row_frame b (data_confirm now b).
Proof. unfold row_frame. simpl. repeat split; auto; try discriminate; lia. Qed.

Lemma row_frame_payment ps pid am cu now b :
  row_frame b (data_payment ps pid am cu now b).
Proof. unfold row_frame. simpl. repeat split; auto; try discriminate; lia. Qed.

(** X10: through any sequence of requests to the two routers, behind any
    middleware, a stored booking keeps its place and its [id], [bookingId],
    [magicLinkId], [userName], [userPhone], [appointmentType],
    [appointmentDate], [bookingDetails], [createdAt] and
    [magicLinkExpiresAt]; its status stays or becomes CONFIRMED (no handler
    cancels, completes or un-confirms a booking); [confirmedAt],
    [paymentUpdatedAt] and [lastAccessedAt] are never cleared once set;
    [accessCount] does not go down. *)
Theorem stored_booking_frame (steps : list Step) (s : Store) (i : nat) (b : Booking.t) :
  bookings s !! i = Some b ->
  exists b', bookings (run steps s) !! i = Some b' /\ row_frame b b'.
Proof.
  intros Hi.
  destruct (run_related row_frame row_frame_refl row_frame_trans row_frame_access
              row_frame_confirm row_frame_payment steps s) as (rows & added & E & F).
  destruct (Forall2_lookup_l _ _ _ _ _ F Hi) as (b' & Hi' & Hr).
  exists b'. rewrite E. split; [|exact Hr].
  apply lookup_app_l_Some. exact Hi'.
Qed.

(** The sample booking through a payment update, a confirmation and an
    access by the API. *)
Lemma stored_booking_frame_witness :
  exists b',
    bookings
      (run [(fun _ => Next,
             HPayment (BookingRoutes.mkUpdatePayment PaymentStatus.COMPLETED
                         (Some "pay_1") None (Some "USD")) 2000000,
             with_params {[ "uuid" := Booking.id booking0 ]} req0);
            (fun _ => Next, HConfirm 2100000,
             with_params {[ "uuid" := Booking.id booking0 ]} req0);
            (fun _ => Next, HGetByMagicLink 2200000 2200001,
             with_params {[ "magicLinkId" := "V1StGXR8_Z5j" ]} req0)] store0)
      !! 0%nat = Some b'
    /\ row_frame booking0 b'.
Proof.
  apply stored_booking_frame. reflexivity.
Defined.

Lemma keys_unique_same_bookings s s' :
  bookings s' = bookings s -> keys_unique s -> keys_unique s'.
Proof. unfold keys_unique. now intros ->. Qed.

Lemma keys_unique_update key k fits data s b' s' :
  (forall x, Booking.id (data x) = Booking.id x) ->
  (forall x, Booking.bookingId (data x) = Booking.bookingId x) ->
  (forall x, Booking.magicLinkId (data x) = Booking.magicLinkId x) ->
  update key k fits data s = Written b' s' ->
  keys_unique s -> keys_unique s'.
Proof.
  intros H1 H2 H3 E (N1 & N2 & N3). apply update_shape in E as [_ Hmap].
  unfold keys_unique. rewrite (Hmap _ _ H1), (Hmap _ _ H2), (Hmap _ _ H3). auto.
Qed.

Lemma NoDup_map_snoc {A} (f : Booking.t -> A) rows row :
  NoDup (map f rows) ->
  (forall b, In b rows -> f b <> f row) ->
  NoDup (map f (rows ++ [row])).
Proof.
  intros Hnd Hne. rewrite map_app. apply NoDup_app. split; [exact Hnd|].
  split; [|apply NoDup_singleton].
  intros x Hx Hx'. apply list_elem_of_In in Hx. apply in_map_iff in Hx as (b & <- & Hb).
  apply list_elem_of_In in Hx'. simpl in Hx'. destruct Hx' as [E|[]].
  exact (Hne b Hb (eq_sym E)).
Qed.

Lemma keys_unique_create row s s' :
  create row s = Some s' -> keys_unique s -> keys_unique s'.
Proof.
  intros E (N1 & N2 & N3). apply create_shape in E as [-> Hfresh].
  unfold keys_unique. simpl.
  repeat split; apply NoDup_map_snoc; auto; intros b Hb; now apply Hfresh.
Qed.

Lemma handle_keys_unique h req s : keys_unique s -> keys_unique (handle h req s).2.
Proof.
  intros Hk. destruct h; unfold_handlers; break_handler; try assumption;
    try (eapply keys_unique_update; [| | |eassumption|assumption]; reflexivity).
  - exact (keys_unique_create _ _ _ E Hk).
  - match goal with
    | H : update _ _ _ _ _ = Written _ ?s0 |- _ =>
        apply (keys_unique_same_bookings s0); [assumption|]
    end.
    eapply keys_unique_update; [| | |eassumption|assumption]; reflexivity.
  - eapply keys_unique_same_bookings; eassumption.
Qed.

Lemma serve_keys_unique st s : keys_unique s -> keys_unique (serve st s).2.
Proof.
  destruct st as [[mw h] req]. unfold serve, route.
  destruct (mw req); [auto|apply handle_keys_unique].
Qed.

Lemma run_keys_unique steps : forall s, keys_unique s -> keys_unique (run steps s).
Proof.
  induction steps as [|st steps IH]; intros s Hk; [exact Hk|].
  unfold run. simpl. apply IH. now apply serve_keys_unique.
Qed.

Lemma NoDup_map_inj {A} (f : Booking.t -> A) rows b1 b2 :
  NoDup (map f rows) -> In b1 rows -> In b2 rows -> f b1 = f b2 -> b1 = b2.
Proof.
  induction rows as [|r rows IH]; [contradiction|].
  simpl. intros Hnd H1 H2 E. apply NoDup_cons in Hnd as [Hr Hnd].
  destruct H1 as [->|H1], H2 as [->|H2]; auto.
  - exfalso. apply Hr. rewrite E. apply list_elem_of_In. now apply in_map.
  - exfalso. apply Hr. rewrite <- E. apply list_elem_of_In. now apply in_map.
Qed.

(** X7: every handler keeps the primary key and the two unique indexes of
    the bookings table: starting from the empty store, after any sequence of
    requests no two stored bookings share an [id], a [bookingId] or a
    [magicLinkId] (a creation that would break this is refused by the store
    and the updates never write a key). *)
Theorem stored_keys_stay_unique :
  (forall st s, keys_unique s -> keys_unique (serve st s).2)
  /\ (forall steps b1 b2,
        In b1 (bookings (run steps (mkStore [] []))) ->
        In b2 (bookings (run steps (mkStore [] []))) ->
        Booking.id b1 = Booking.id b2
        \/ Booking.bookingId b1 = Booking.bookingId b2
        \/ Booking.magicLinkId b1 = Booking.magicLinkId b2 ->
        b1 = b2).
Proof.
  split; [exact serve_keys_unique|].
  intros steps b1 b2 H1 H2 E.
  assert (Hk : keys_unique (run steps (mkStore [] []))).
  { apply run_keys_unique. unfold keys_unique. simpl. repeat split; apply NoDup_nil_2. }
  destruct Hk as (N1 & N2 & N3).
  destruct E as [E|[E|E]]; eauto using NoDup_map_inj.
Qed.

End Invariants.

Section Effects.
Import Prisma.

(** One creation on top of the sample store. *)
Lemma stored_keys_stay_unique_witness :
  keys_unique
    (serve (fun _ => Next,
            HCreate env0
              (BookingRoutes.mkCreate "+1987654321" "Jane Smith"
                 AppointmentType.TUTORIAL 90000000 None)
              "0c5f1a52-38a4-4d8e-8a55-0f2a1c9e7b31" "Zq3vT8_kLm2x" "p0o9i8u7y"
              1200000 1200001 1200002, req0) store0).2.
Proof.
  apply (proj1 stored_keys_stay_unique).
  unfold keys_unique. simpl. repeat split; apply NoDup_singleton.
Defined.

Lemma handle_appends h req s :
  exists added,
    analytics (handle h req s).2 = (analytics s ++ added)%list
    /\ (length added <= 1)%nat.
Proof.
  destruct h; unfold_handlers; break_handler;
    try (exists []; split; [now rewrite app_nil_r|simpl; lia]);
    try (match goal with
         | H : create _ _ = Some _ |- _ => apply create_shape in H as [-> _]
         end);
    try (match goal with
         | H : update _ _ _ _ _ = Written _ _ |- _ =>
             apply update_shape in H as [Ha _]
         end);
    repeat match goal with
      | H : analytics _ = _ |- _ => rewrite H; clear H
      end;
    first [ exists []; split; [now rewrite app_nil_r|simpl; lia]
          | eexists [_]; split; [reflexivity|simpl; lia] ].
Qed.

(** X8: the analytics table is append-only: a request leaves the rows
    that were there as they were and in place, adding at most one row at
    the end, so after any sequence of requests the table is the old one
    followed by at most one new row per request. *)
Theorem analytics_append_only :
  (forall st s,
      exists added,
        analytics (serve st s).2 = (analytics s ++ added)%list
        /\ (length added <= 1)%nat)
  /\ (forall steps s,
        exists added,
          analytics (run steps s) = (analytics s ++ added)%list
          /\ (length added <= length steps)%nat).
Proof.
  assert (H1 : forall st s,
             exists added,
               analytics (serve st s).2 = (analytics s ++ added)%list
               /\ (length added <= 1)%nat).
  { intros [[mw h] req] s. unfold serve, route.
    destruct (mw req); [|apply handle_appends].
    exists []. split; [now rewrite app_nil_r|simpl; lia]. }
  split; [exact H1|].
  induction steps as [|st steps IH]; intros s.
  - exists []. split; [now rewrite app_nil_r|simpl; lia].
  - unfold run. simpl.
    destruct (H1 st s) as (a1 & E1 & L1).
    destruct (IH (serve st s).2) as (a2 & E2 & L2).
    exists (a1 ++ a2)%list. unfold run in E2. rewrite E2, E1, app_assoc.
    split; [reflexivity|]. rewrite length_app. lia.
Qed.

(** X9: what each handler writes. The handlers of GET /:id, of the
    preview and of the analytics listing return the store as it was; the
    track handler writes no booking; creation, confirmation, payment update
    and GET /magic/:magicLinkId write no analytics row (the last one is a
    GET that writes the bookings table). *)
Theorem handler_write_sets (h : Handler) (req : Request) (s : Store) :
  match h with
  | HGetById _ | HPreview _ | HAnalytics => (handle h req s).2 = s
  | HTrack _ _ _ => bookings (handle h req s).2 = bookings s
  | HRedirect _ _ _ _ => True
  | HCreate _ _ _ _ _ _ _ _ | HConfirm _ | HPayment _ _ | HGetByMagicLink _ _ =>
      analytics (handle h req s).2 = analytics s
  end.
Proof.
  destruct h; unfold_handlers; break_handler; try reflexivity; try exact I;
    try assumption;
    try (match goal with
         | H : update _ _ _ _ _ = Written _ _ |- _ =>
             now apply update_shape in H as [Ha _]
         end).
  now apply create_shape in E as [-> _].
Qed.

End Effects.

(** ** Confirmation and payment update *)

Section Lifecycle.
Import Prisma BookingRoutes.

Lemma rows_after_cons key k data r rest :
  rows_after key k data (r :: rest)
  = if (key r =? k)%string then data r :: rest
    else r :: rows_after key k data rest.
Proof.
  unfold rows_after. simpl. destruct (key r =? k)%string; [reflexivity|].
  now destruct (update_rows key k data rest) as [[c rows']|].
Qed.

Lemma update_rows_find key k data rows :
  update_rows key k data rows
  = match find (fun r => (key r =? k)%string) rows with
    | Some b => Some (data b, rows_after key k data rows)
    | None => None
    end.
Proof.
  induction rows as [|r rows IH]; [reflexivity|].
  rewrite rows_after_cons. simpl. destruct (key r =? k)%string; [reflexivity|].
  rewrite IH. now destruct (find _ rows).
Qed.

Lemma update_out key k fits data s :
  update key k fits data s
  = match findUnique key k s with
    | Some b =>
        if fits (data b)
        then Written (data b)
               (mkStore (rows_after key k data (bookings s)) (analytics s))
        else Rejected
    | None => RecordNotFound
    end.
Proof.
  unfold update, findUnique. rewrite update_rows_find.
  now destruct (find _ (bookings s)).
Qed.

Lemma find_rows_after key k k2 data rows :
  (forall x, key (data x) = key x) ->
  find (fun r => (key r =? k)%string) (rows_after key k2 data rows)
  = option_map (fun b => if (k =? k2)%string then data b else b)
      (find (fun r => (key r =? k)%string) rows).
Proof.
  intros Hkeep. induction rows as [|r rows IH]; [reflexivity|].
  rewrite rows_after_cons.
  destruct (String.eqb_spec (key r) k2) as [E2|E2]; simpl.
  - rewrite Hkeep. destruct (String.eqb_spec (key r) k) as [E|E]; simpl.
    + rewrite <- E, <- E2. now rewrite String.eqb_refl.
    + destruct (String.eqb_spec k k2) as [Ek|Ek]; [congruence|].
      now destruct (find _ rows).
  - destruct (String.eqb_spec (key r) k) as [E|E]; simpl; [|exact IH].
    destruct (String.eqb_spec k k2) as [Ek|Ek]; [congruence|reflexivity].
Qed.

Lemma rows_after_comm key k1 k2 f g rows :
  (forall x, key (f x) = key x) -> (forall x, key (g x) = key x) ->
  (forall x, f (g x) = g (f x)) ->
  rows_after key k1 f (rows_after key k2 g rows)
  = rows_after key k2 g (rows_after key k1 f rows).
Proof.
  intros Hf Hg Hfg. induction rows as [|r rows IH]; [reflexivity|].
  rewrite !rows_after_cons.
  destruct (String.eqb_spec (key r) k1) as [E1|E1];
    destruct (String.eqb_spec (key r) k2) as [E2|E2];
    rewrite !rows_after_cons, ?Hf, ?Hg;
    repeat match goal with
      | |- context [(?a =? ?b)%string] =>
          destruct (String.eqb_spec a b); try congruence
      end.
Qed.

Lemma data_confirm_payment_comm now1 ps pid am cu now2 b :
  data_confirm now1 (data_payment ps pid am cu now2 b)
  = data_payment ps pid am cu now2 (data_confirm now1 b).
Proof. reflexivity. Qed.

Lemma bound_uuid (uuid : string) (req : Request) :
  or_else (params (with_params {[ "uuid" := uuid ]} req) !! "uuid") None
  = if (uuid =? "")%string then None else Some uuid.
Proof. simpl. now rewrite lookup_singleton_eq. Qed.

(** What a confirmation returns and leaves, read off the lookup. *)
Lemma POST_confirm_out uuid now req s :
  POST_confirm uuid now req s
  = if (uuid =? "")%string then
      (Json 400 (Failure "Missing UUID" "UUID parameter is required."), s)
    else
      match Column.uuid uuid with
      | None =>
          (internal "An unexpected error occurred while confirming the booking.", s)
      | Some u =>
          match findUnique Booking.id u s with
          | Some b =>
              (Json 200 (Confirmed (Booking.bookingId b) (Booking.id b)
                           BookingStatus.CONFIRMED
                           "Appointment confirmed successfully."),
               mkStore (rows_after Booking.id u (data_confirm now) (bookings s))
                 (analytics s))
          | None =>
              (Json 404 (Failure "Booking not found"
                           "Unable to find booking with the provided UUID."), s)
          end
      end.
Proof.
  unfold POST_confirm, confirm. rewrite bound_uuid.
  destruct (uuid =? "")%string; [reflexivity|]. unfold update_by_id.
  destruct (Column.uuid uuid) as [u|]; [|reflexivity]. rewrite update_out.
  now destruct (findUnique Booking.id u s).
Qed.

Lemma PUT_payment_out uuid body now req s :
  PUT_payment uuid body now req s
  = if (uuid =? "")%string then
      (Json 400 (Failure "Missing UUID" "UUID parameter is required."), s)
    else
      match Column.uuid uuid with
      | None =>
          (internal "An unexpected error occurred while updating payment status.", s)
      | Some u =>
          match findUnique Booking.id u s with
          | Some b =>
              if payment_fits (paymentId body) (amount body) (currency body) then
                (Json 200 (PaymentUpdated (Booking.bookingId b) (Booking.id b)
                             (paymentStatus body)
                             "Payment status updated successfully."),
                 mkStore
                   (rows_after Booking.id u
                      (data_payment (paymentStatus body) (paymentId body)
                         (amount body) (currency body) now) (bookings s))
                   (analytics s))
              else
                (internal "An unexpected error occurred while updating payment status.",
                 s)
          | None =>
              (Json 404 (Failure "Booking not found"
                           "Unable to find booking with the provided UUID."), s)
          end
      end.
Proof.
  unfold PUT_payment, payment. rewrite bound_uuid.
  destruct (uuid =? "")%string; [reflexivity|]. unfold update_by_id.
  destruct (Column.uuid uuid) as [u|]; [|reflexivity]. rewrite update_out.
  destruct (findUnique Booking.id u s); [|reflexivity].
  now destruct (payment_fits _ _ _).
Qed.

(** X11: a confirmation and a payment update, of the same booking or of
    two different ones, commute: in either order they leave the same store,
    and each request is answered the same whether it comes first or second.
    The status and the payment status are written independently. *)
Theorem confirm_and_payment_commute (uuid1 uuid2 : string) (now1 now2 : Z)
    (body : UpdatePaymentRequest) (req : Request) (s : Store) :
  (POST_confirm uuid1 now1 req (PUT_payment uuid2 body now2 req s).2).2
  = (PUT_payment uuid2 body now2 req (POST_confirm uuid1 now1 req s).2).2
  /\ (POST_confirm uuid1 now1 req (PUT_payment uuid2 body now2 req s).2).1
     = (POST_confirm uuid1 now1 req s).1
  /\ (PUT_payment uuid2 body now2 req (POST_confirm uuid1 now1 req s).2).1
     = (PUT_payment uuid2 body now2 req s).1.
Proof.
  rewrite (POST_confirm_out uuid1 now1 req s), (PUT_payment_out uuid2 body now2 req s).
  destruct (uuid1 =? "")%string eqn:U1; destruct (uuid2 =? "")%string eqn:U2;
    cbn [fst snd].
  - rewrite POST_confirm_out, PUT_payment_out, U1, U2. repeat split.
  - rewrite POST_confirm_out, U1. cbn [fst snd]. rewrite PUT_payment_out, U2.
    repeat split.
  - rewrite PUT_payment_out, U2. cbn [fst snd]. rewrite POST_confirm_out, U1.
    repeat split.
  - destruct (Column.uuid uuid1) as [u1|] eqn:C1;
      destruct (Column.uuid uuid2) as [u2|] eqn:C2;
      try destruct (findUnique Booking.id u2 s) as [b2|] eqn:F2;
      try destruct (findUnique Booking.id u1 s) as [b1|] eqn:F1;
      destruct (payment_fits (paymentId body) (amount body) (currency body)) eqn:PF;
      cbn [fst snd]; rewrite POST_confirm_out, PUT_payment_out, U1, U2, ?C1, ?C2;
      unfold findUnique in *; cbn [bookings analytics];
      rewrite ?find_rows_after by reflexivity; rewrite ?F1, ?F2, ?PF;
      cbn [option_map fst snd bookings analytics];
      try (repeat split; fail).
    split; [|split].
    + f_equal. apply rows_after_comm; reflexivity.
    + now destruct (u1 =? u2)%string.
    + now destruct (u2 =? u1)%string.
Qed.

End Lifecycle.

Section PaymentUpdate.
Import Prisma BookingRoutes.



End PaymentUpdate.

(** ** Creation, continued *)

Section CreationMore.
Import Prisma BookingRoutes.

Lemma find_snoc {A} (p : A -> bool) (l : list A) (x : A) :
  find p (l ++ [x])
  = match find p l with
    | Some y => Some y
    | None => if p x then Some x else None
    end.
Proof.
  induction l as [|a l IH]; simpl; [reflexivity|].
  now destruct (p a).
Qed.

Lemma create_unfold env body uuid nano rnd nowId nowExp nowRow s :
  create env body uuid nano rnd nowId nowExp nowRow s
  = match Prisma.create (created_row body uuid nano rnd nowId nowExp nowRow) s with
    | Some s' =>
        (Json 201 (Created ("booking_" +:+ template nowId +:+ "_" +:+ rnd) uuid nano
                     (or_default (MAGIC_LINK_BASE_URL env) "https://tbook.me"
                      +:+ "/appt/" +:+ nano)
                     BookingStatus.PENDING_CONFIRMATION
                     "Booking created successfully. Confirmation link sent to user."),
         s')
    | None =>
        (internal "An unexpected error occurred while creating the booking.", s)
    end.
Proof. reflexivity. Qed.

Lemma find_none_key (key : Booking.t -> string) (k : string) rows :
  (forall b, In b rows -> key b <> k) ->
  find (fun r => (key r =? k)%string) rows = None.
Proof.
  intros H. induction rows as [|r rows IH]; [reflexivity|]. simpl.
  rewrite (proj2 (String.eqb_neq _ _) (H r (or_introl eq_refl))).
  apply IH. intros b Hb. apply H. now right.
Qed.

(** A creation that is answered 201 has stored its row, and the three keys
    of the row were free. *)
Lemma create_answered env body uuid nano rnd nowId nowExp nowRow s d :
  (create env body uuid nano rnd nowId nowExp nowRow s).1 = Json 201 d ->
  create env body uuid nano rnd nowId nowExp nowRow s
  = (Json 201 (Created ("booking_" +:+ template nowId +:+ "_" +:+ rnd) uuid nano
                 (or_default (MAGIC_LINK_BASE_URL env) "https://tbook.me"
                  +:+ "/appt/" +:+ nano)
                 BookingStatus.PENDING_CONFIRMATION
                 "Booking created successfully. Confirmation link sent to user."),
     mkStore (bookings s ++ [created_row body uuid nano rnd nowId nowExp nowRow])
       (analytics s))
  /\ findUnique Booking.id uuid s = None
  /\ findUnique Booking.bookingId ("booking_" +:+ template nowId +:+ "_" +:+ rnd) s
     = None
  /\ findUnique Booking.magicLinkId nano s = None.
Proof.
  rewrite create_unfold.
  destruct (Prisma.create (created_row body uuid nano rnd nowId nowExp nowRow) s)
    as [s'|] eqn:E; [|discriminate].
  intros _. apply create_shape in E as [-> Hfresh].
  split; [reflexivity|].
  unfold findUnique. repeat split; apply find_none_key; intros b Hb;
    now apply Hfresh.
Qed.

Lemma prisma_create_taken row s x :
  findUnique Booking.id (Booking.id row) s = Some x
  \/ findUnique Booking.bookingId (Booking.bookingId row) s = Some x
  \/ findUnique Booking.magicLinkId (Booking.magicLinkId row) s = Some x ->
  Prisma.create row s = None.
Proof.
  unfold findUnique, Prisma.create. intros H.
  match goal with |- context [existsb ?p (bookings s)] =>
    assert (E : existsb p (bookings s) = true) end.
  { apply existsb_exists. exists x.
    destruct H as [H|[H|H]]; apply find_some in H as [Hin Hk];
      (split; [exact Hin|]); rewrite Hk; now rewrite ?orb_true_r. }
  now rewrite E.
Qed.

(** X13: a creation that is answered 201 returns the booking id, the
    primary key, the token and the link [MAGIC_LINK_BASE_URL/appt/token];
    afterwards the token, the primary key and the booking id each find the
    new booking (pending, unpaid, never accessed, expiring one hour after
    the clock reading of the creation), every lookup that found a booking
    before finds the same one, and the analytics table is as it was. *)
Theorem create_then_lookup (env : Env) (body : CreateBookingRequest)
    (uuid nano rnd : string) (nowId nowExp nowRow : Z) (s : Store) (d : Body) :
  (create env body uuid nano rnd nowId nowExp nowRow s).1 = Json 201 d ->
  exists s' b,
    create env body uuid nano rnd nowId nowExp nowRow s
    = (Json 201 (Created ("booking_" +:+ template nowId +:+ "_" +:+ rnd) uuid nano
                   (or_default (MAGIC_LINK_BASE_URL env) "https://tbook.me"
                    +:+ "/appt/" +:+ nano)
                   BookingStatus.PENDING_CONFIRMATION
                   "Booking created successfully. Confirmation link sent to user."),
       s')
    /\ findUnique Booking.magicLinkId nano s' = Some b
    /\ findUnique Booking.id uuid s' = Some b
    /\ findUnique Booking.bookingId ("booking_" +:+ template nowId +:+ "_" +:+ rnd) s'
       = Some b
    /\ Booking.userName b = userName body
    /\ Booking.userPhone b = userPhone body
    /\ Booking.status b = BookingStatus.PENDING_CONFIRMATION
    /\ Booking.paymentStatus b = PaymentStatus.PENDING
    /\ Booking.accessCount b = 0
    /\ Booking.magicLinkExpiresAt b = Some (nowExp + 3600000)
    /\ (forall key k x, findUnique key k s = Some x -> findUnique key k s' = Some x)
    /\ analytics s' = analytics s.
Proof.
  intros H201.
  destruct (create_answered _ _ _ _ _ _ _ _ _ _ H201) as (-> & Hid & Hbid & Htok).
  eexists. exists (created_row body uuid nano rnd nowId nowExp nowRow).
  split; [reflexivity|].
  unfold findUnique in *. cbn [bookings analytics]. rewrite !find_snoc.
  rewrite Hid, Hbid, Htok. cbn [created_row Booking.id Booking.bookingId
                                 Booking.magicLinkId].
  rewrite !String.eqb_refl. repeat split.
  intros key k x Hx. rewrite find_snoc. now rewrite Hx.
Qed.

(** A second booking on top of the sample store. *)
Lemma create_then_lookup_witness :
  exists s' b,
    (create env0 (mkCreate "+1987654321" "Jane Smith" AppointmentType.TUTORIAL
                    90000000 None)
       "0c5f1a52-38a4-4d8e-8a55-0f2a1c9e7b31" "Zq3vT8_kLm2x" "p0o9i8u7y"
       1200000 1200001 1200002 store0).2 = s'
    /\ findUnique Booking.magicLinkId "Zq3vT8_kLm2x" s' = Some b
    /\ Booking.accessCount b = 0.
Proof.
  destruct (create_then_lookup env0
              (mkCreate "+1987654321" "Jane Smith" AppointmentType.TUTORIAL
                 90000000 None)
              "0c5f1a52-38a4-4d8e-8a55-0f2a1c9e7b31" "Zq3vT8_kLm2x" "p0o9i8u7y"
              1200000 1200001 1200002 store0
              (Created "booking_1200000_p0o9i8u7y" "0c5f1a52-38a4-4d8e-8a55-0f2a1c9e7b31"
                 "Zq3vT8_kLm2x" "https://tbook.me/appt/Zq3vT8_kLm2x"
                 BookingStatus.PENDING_CONFIRMATION
                 "Booking created successfully. Confirmation link sent to user.")
              eq_refl)
    as (s' & b & E & Hf & _ & _ & _ & _ & _ & _ & Hc & _).
  exists s', b. rewrite E. repeat split; assumption.
Defined.

(** X14: a creation whose primary key, booking id or token is already
    carried by a stored booking is refused by the store: the handler
    answers 500 "Internal server error" and the store is left as it was. *)
Theorem create_refused_on_taken_key (env : Env) (body : CreateBookingRequest)
    (uuid nano rnd : string) (nowId nowExp nowRow : Z) (s : Store) (x : Booking.t) :
  findUnique Booking.id uuid s = Some x
  \/ findUnique Booking.bookingId ("booking_" +:+ template nowId +:+ "_" +:+ rnd) s
     = Some x
  \/ findUnique Booking.magicLinkId nano s = Some x ->
  create env body uuid nano rnd nowId nowExp nowRow s
  = (Json 500 (Failure "Internal server error"
                 "An unexpected error occurred while creating the booking."), s).
Proof.
  intros H. rewrite create_unfold.
  now rewrite (prisma_create_taken
                 (created_row body uuid nano rnd nowId nowExp nowRow) s x H).
Qed.

(** The token of the sample booking, drawn again. *)
Lemma create_refused_on_taken_key_witness :
  create env0 (mkCreate "+1987654321" "Jane Smith" AppointmentType.TUTORIAL
                 90000000 None)
    "0c5f1a52-38a4-4d8e-8a55-0f2a1c9e7b31" "V1StGXR8_Z5j" "p0o9i8u7y"
    1200000 1200001 1200002 store0
  = (Json 500 (Failure "Internal server error"
                 "An unexpected error occurred while creating the booking."), store0).
Proof.
  apply (create_refused_on_taken_key _ _ _ _ _ _ _ _ _ booking0).
  right. right. reflexivity.
Defined.



End CreationMore.

(** ** Resolution, continued *)

Section ResolutionMore.
Import Prisma.

Lemma find_updated key k data s b :
  (forall x, key (data x) = key x) ->
  findUnique key k s = Some b ->
  findUnique key k (mkStore (rows_after key k data (bookings s)) (analytics s))
  = Some (data b).
Proof.
  unfold findUnique. cbn [bookings]. intros Hkeep Hb.
  rewrite find_rows_after by exact Hkeep. rewrite Hb. cbn [option_map].
  now rewrite String.eqb_refl.
Qed.

(** X15: the link of a booking whose creation was answered 201 is served
    by GET /magic/:magicLinkId with 200 and the booking as long as the
    clock is at most one hour past the clock reading of the creation, and
    with 410 "Magic link expired" afterwards. *)
Theorem created_link_served_for_one_hour (env : Env)
    (body : BookingRoutes.CreateBookingRequest) (uuid nano rnd : string)
    (nowId nowExp nowRow nowCheck nowTouch : Z) (req : Request) (s : Store)
    (d : Body) :
  nano <> "" ->
  (BookingRoutes.create env body uuid nano rnd nowId nowExp nowRow s).1 = Json 201 d ->
  (BookingRoutes.GET_magic nano nowCheck nowTouch req
     (BookingRoutes.create env body uuid nano rnd nowId nowExp nowRow s).2).1
  = if nowCheck >? nowExp + 3600000 then
      Json 410 (Failure "Magic link expired"
                  "This magic link has expired and is no longer valid.")
    else
      Json 200 (Details (BookingRoutes.view
                           (created_row body uuid nano rnd nowId nowExp nowRow) None)).
Proof.
  intros Hne H201.
  destruct (create_answered _ _ _ _ _ _ _ _ _ _ H201) as (-> & Hid & Hbid & Htok).
  cbn [snd].
  unfold BookingRoutes.GET_magic, BookingRoutes.getByMagicLink.
  rewrite (bound_param _ _ _ Hne).
  assert (Ft : findUnique Booking.magicLinkId nano
                 (mkStore (bookings s ++ [created_row body uuid nano rnd nowId nowExp
                                            nowRow]) (analytics s))
               = Some (created_row body uuid nano rnd nowId nowExp nowRow)).
  { unfold findUnique in *. cbn [bookings]. rewrite find_snoc, Htok.
    cbn [created_row Booking.magicLinkId]. now rewrite String.eqb_refl. }
  assert (Fi : findUnique Booking.id uuid
                 (mkStore (bookings s ++ [created_row body uuid nano rnd nowId nowExp
                                            nowRow]) (analytics s))
               = Some (created_row body uuid nano rnd nowId nowExp nowRow)).
  { unfold findUnique in *. cbn [bookings]. rewrite find_snoc, Hid.
    cbn [created_row Booking.id]. now rewrite String.eqb_refl. }
  rewrite Ft.
  change (BookingRoutes.past_expiry (created_row body uuid nano rnd nowId nowExp nowRow)
            nowCheck) with (nowCheck >? nowExp + 3600000).
  destruct (nowCheck >? nowExp + 3600000); [reflexivity|].
  rewrite update_out.
  change (Booking.id (created_row body uuid nano rnd nowId nowExp nowRow)) with uuid.
  now rewrite Fi.
Qed.

(** A booking created at instant [1200001], resolved exactly one hour
    later. *)
Lemma created_link_served_for_one_hour_witness :
  (BookingRoutes.GET_magic "Zq3vT8_kLm2x" 4800001 4800002 req0
     (BookingRoutes.create env0
        (BookingRoutes.mkCreate "+1987654321" "Jane Smith" AppointmentType.TUTORIAL
           90000000 None)
        "0c5f1a52-38a4-4d8e-8a55-0f2a1c9e7b31" "Zq3vT8_kLm2x" "p0o9i8u7y"
        1200000 1200001 1200002 store0).2).1
  = Json 200 (Details (BookingRoutes.view
                         (created_row
                            (BookingRoutes.mkCreate "+1987654321" "Jane Smith"
                               AppointmentType.TUTORIAL 90000000 None)
                            "0c5f1a52-38a4-4d8e-8a55-0f2a1c9e7b31" "Zq3vT8_kLm2x"
                            "p0o9i8u7y" 1200000 1200001 1200002) None)).
Proof.
  apply (created_link_served_for_one_hour env0 _ _ _ _ 1200000 1200001 1200002
           4800001 4800002 req0 store0
           (Created "booking_1200000_p0o9i8u7y" "0c5f1a52-38a4-4d8e-8a55-0f2a1c9e7b31"
                 "Zq3vT8_kLm2x" "https://tbook.me/appt/Zq3vT8_kLm2x"
                 BookingStatus.PENDING_CONFIRMATION
                 "Booking created successfully. Confirmation link sent to user."));
    [discriminate|reflexivity].
Defined.

(** X22: the access counter is a 32-bit integer. Once a booking has
    been resolved 2147483647 times the increment is refused: for a link
    that has not expired, the redirect route sends the visitor to the
    server-error page, the magic-API route answers 500, and neither writes
    anything. *)
Theorem access_count_stops_at_int4_max (tok : string) (s : Store) (b : Booking.t) :
  tok <> "" -> pk_unique s ->
  findUnique Booking.magicLinkId tok s = Some b ->
  Booking.accessCount b = 2147483647 ->
  (forall env nowTouch nowEvent evId req,
      BookingRoutes.past_expiry b nowTouch = false ->
      RedirectRoutes.GET_appt env tok nowTouch nowEvent evId req s
      = (Redirect 302 (RedirectRoutes.frontend env
                       +:+ "/booking/error?reason=server_error"), s))
  /\ (forall nowCheck nowTouch req,
        BookingRoutes.past_expiry b nowCheck = false ->
        BookingRoutes.GET_magic tok nowCheck nowTouch req s
        = (BookingRoutes.internal
             "An unexpected error occurred while retrieving the booking.", s)).
Proof.
  intros Hne Hpk Hb Hfull. split.
  - intros env nowTouch nowEvent evId req _.
    unfold RedirectRoutes.GET_appt, RedirectRoutes.redirect, RedirectRoutes.bind.
    rewrite (bound_param _ _ _ Hne), Hb, update_out, Hb.
    now rewrite (access_fits_full _ _ Hfull).
  - intros nowCheck nowTouch req Hexp.
    unfold BookingRoutes.GET_magic, BookingRoutes.getByMagicLink.
    rewrite (bound_param _ _ _ Hne), Hb, Hexp, update_out.
    rewrite (findUnique_by_id Booking.magicLinkId tok s b Hpk Hb).
    now rewrite (access_fits_full _ _ Hfull).
Qed.

(** The sample booking with a full counter. *)
Lemma access_count_stops_at_int4_max_witness :
  RedirectRoutes.GET_appt env0 "V1StGXR8_Z5j" 2000000 2000001 "e-3" req0
    (mkStore [data_count 2147483647 booking0] [])
  = (Redirect 302 "https://usetextbook.com/booking/error?reason=server_error",
     mkStore [data_count 2147483647 booking0] []).
Proof.
  refine (proj1 (access_count_stops_at_int4_max "V1StGXR8_Z5j"
                   (mkStore [data_count 2147483647 booking0] [])
                   (data_count 2147483647 booking0) _ _ _ _) env0 _ _ _ _ _).
  - discriminate.
  - unfold pk_unique. simpl. apply NoDup_singleton.
  - reflexivity.
  - reflexivity.
  - reflexivity.
Defined.

(** X17: the three targets of the redirect route are never confused: for
    every booking and every front-end base URL the target of a successful
    resolution differs from the not-found and the server-error targets,
    which differ from each other. *)
Theorem redirect_targets_distinct (env : Env) (b : Booking.t) :
  RedirectRoutes.redirectUrl env b
  <> RedirectRoutes.frontend env +:+ "/booking/error?reason=not_found"
  /\ RedirectRoutes.redirectUrl env b
     <> RedirectRoutes.frontend env +:+ "/booking/error?reason=server_error"
  /\ RedirectRoutes.frontend env +:+ "/booking/error?reason=not_found"
     <> RedirectRoutes.frontend env +:+ "/booking/error?reason=server_error".
Proof.
  unfold RedirectRoutes.redirectUrl. cbv zeta.
  repeat split; intros E; apply (f_equal last_char) in E;
    rewrite !last_char_app in E; discriminate E.
Qed.

Lemma admittedb_admitted b r : admittedb b r = true <-> admitted b r.
Proof.
  unfold admittedb, admitted.
  now destruct (BookingRoutes.past_expiry b (clock_of r)).
Qed.

Lemma admittedb_ext b b' r :
  Booking.magicLinkExpiresAt b' = Booking.magicLinkExpiresAt b ->
  admittedb b' r = admittedb b r.
Proof.
  intros E. unfold admittedb, BookingRoutes.past_expiry. now rewrite E.
Qed.

(** A call of the API after the expiration leaves the store as it was. *)
Lemma resolve_rejected tok s b r :
  tok <> "" ->
  findUnique Booking.magicLinkId tok s = Some b ->
  via_api r = true ->
  admittedb b r = false ->
  (resolve tok r s).2 = s.
Proof.
  intros Hne Hb Hapi Hr. destruct r as [|nowCheck nowTouch req]; [discriminate|].
  unfold admittedb in Hr. simpl in *.
  unfold BookingRoutes.GET_magic, BookingRoutes.getByMagicLink.
  rewrite (bound_param _ _ _ Hne), Hb.
  now destruct (BookingRoutes.past_expiry b nowCheck).
Qed.

(** X18: in a sequence of resolutions of one token by the redirect route
    and the magic-API route in which every redirect is served before the
    link expires, [accessCount] grows by exactly the number of resolutions
    served before the expiration, as long as the count stays within 32
    bits. A call of the API after the expiration changes nothing. *)
Theorem access_count_counts_successes (tok : string) (rs : list Resolution)
    (s : Store) (b : Booking.t) :
  tok <> "" -> pk_unique s ->
  findUnique Booking.magicLinkId tok s = Some b ->
  Column.int4 (Booking.accessCount b) = true ->
  Forall (fun r => via_api r = false -> admitted b r) rs ->
  Booking.accessCount b + Z.of_nat (length (List.filter (admittedb b) rs))
  <= 2147483647 ->
  exists b',
    findUnique Booking.magicLinkId tok (resolve_all tok rs s) = Some b'
    /\ Booking.accessCount b'
       = Booking.accessCount b + Z.of_nat (length (List.filter (admittedb b) rs)).
Proof.
  revert s b. induction rs as [|r rs IH]; intros s b Hne Hpk Hb Hfit Hall Hroom.
  - exists b. split; [exact Hb|simpl; lia].
  - apply Forall_cons in Hall as [Hr0 Hrs].
    unfold resolve_all. simpl fold_left. simpl List.filter in *.
    destruct (admittedb b r) eqn:Hr.
    + simpl length in Hroom.
      assert (Hlt : Booking.accessCount b < 2147483647) by lia.
      destruct (resolve_admitted tok s b r Hne Hpk Hb Hfit Hlt
                  (proj1 (admittedb_admitted b r) Hr))
        as (rows' & E & Hf & Hmap).
      rewrite E. simpl snd.
      assert (Hext : forall x, admittedb (data_access (touch_of r) b) x
                               = admittedb b x)
        by (intros x; now apply admittedb_ext).
      destruct (IH (mkStore rows' (analytics s ++ events_of b r)%list)
                  (data_access (touch_of r) b) Hne) as (b' & Hb' & Hc).
      * unfold pk_unique. simpl. now rewrite Hmap.
      * exact Hf.
      * now apply int4_next.
      * eapply Forall_impl; [exact Hrs|]. intros x Hx Hv.
        now apply (admitted_ext b), Hx.
      * rewrite (filter_ext _ _ Hext). simpl. lia.
      * exists b'. split; [exact Hb'|]. rewrite Hc, (filter_ext _ _ Hext).
        simpl. lia.
    + assert (Hapi : via_api r = true).
      { destruct (via_api r) eqn:Hv; [reflexivity|].
        pose proof (proj2 (admittedb_admitted b r) (Hr0 eq_refl)). congruence. }
      rewrite (resolve_rejected tok s b r Hne Hb Hapi Hr). now apply IH.
Qed.

(** The sample token: an API call in time, an API call too late, a
    redirect in time. *)
Lemma access_count_counts_successes_witness :
  exists b',
    findUnique Booking.magicLinkId "V1StGXR8_Z5j"
      (resolve_all "V1StGXR8_Z5j"
         [ViaMagicApi 2000000 2000001 req0;
          ViaMagicApi 4601000 4601001 req0;
          ViaRedirect env0 3000000 3000001 "e-3" req0] store0) = Some b'
    /\ Booking.accessCount b' = 0 + Z.of_nat 2.
Proof.
  assert (Hne : "V1StGXR8_Z5j" <> "") by discriminate.
  assert (Hpk : pk_unique store0) by (unfold pk_unique; simpl; apply NoDup_singleton).
  assert (Hall : Forall (fun r => via_api r = false -> admitted booking0 r)
                   [ViaMagicApi 2000000 2000001 req0;
                    ViaMagicApi 4601000 4601001 req0;
                    ViaRedirect env0 3000000 3000001 "e-3" req0]).
  { repeat constructor; discriminate. }
  assert (Hroom : Booking.accessCount booking0
                  + Z.of_nat (length (List.filter (admittedb booking0)
                       [ViaMagicApi 2000000 2000001 req0;
                        ViaMagicApi 4601000 4601001 req0;
                        ViaRedirect env0 3000000 3000001 "e-3" req0]))
                  <= 2147483647) by (simpl; lia).
  exact (access_count_counts_successes "V1StGXR8_Z5j"
           [ViaMagicApi 2000000 2000001 req0;
            ViaMagicApi 4601000 4601001 req0;
            ViaRedirect env0 3000000 3000001 "e-3" req0] store0 booking0
           Hne Hpk eq_refl eq_refl Hall Hroom).
Defined.

End ResolutionMore.

(** ** The analytics handlers *)

Section ListingMore.
Import Prisma RedirectRoutes.

(** X20: the handler of GET /:magicLinkId/analytics, reached with the
    token of a booking, answers 200 with the booking's id, access count and
    last access and with a list of its analytics rows that is ordered by
    timestamp, newest first, and has at most 50 rows; every listed row is a
    stored row of that booking, no row of the booking that is left out is
    newer than a listed one, and while the booking has at most 50 rows all
    of them are listed. The store is not written. *)
Theorem analytics_handler_lists_newest_first (tok : string) (req : Request)
    (s : Store) (b : Booking.t) :
  tok <> "" ->
  findUnique Booking.magicLinkId tok s = Some b ->
  exists events,
    analyticsOf (bind tok req) s
    = (Json 200 (Analytics (mkAnalyticsView (Booking.bookingId b)
                              (Booking.accessCount b) (Booking.lastAccessedAt b)
                              (map event_view events))), s)
    /\ StronglySorted
         (fun x y => BookingAnalytics.timestamp y <= BookingAnalytics.timestamp x)
         events
    /\ (length events <= 50)%nat
    /\ (forall e, In e events ->
          In e (analytics s) /\ BookingAnalytics.bookingId e = Booking.id b)
    /\ (forall e e',
          In e events -> In e' (analytics s) ->
          BookingAnalytics.bookingId e' = Booking.id b -> ~ In e' events ->
          BookingAnalytics.timestamp e' <= BookingAnalytics.timestamp e)
    /\ ((length (filter (fun e => BookingAnalytics.bookingId e = Booking.id b)
                   (analytics s)) <= 50)%nat ->
        forall e, In e (analytics s) ->
                  BookingAnalytics.bookingId e = Booking.id b -> In e events).
Proof.
  intros Hne Hb. exists (includeAnalytics (Booking.id b) s).
  destruct (includeAnalytics_spec (Booking.id b) s) as (Hs & Hl & Hin & Hout & Hall).
  split; [|split; [exact Hs|split; [exact Hl|split; [|split]]]].
  - unfold analyticsOf, bind. now rewrite (bound_param _ _ _ Hne), Hb.
  - intros e He. apply list_elem_of_In in He. apply Hin in He as [He ?].
    split; [now apply list_elem_of_In|assumption].
  - intros e e' He He' Hb' Hnot.
    apply (Hout e e'); [now apply list_elem_of_In| |].
    + apply list_elem_of_filter. split; [exact Hb'|now apply list_elem_of_In].
    + intros H. apply Hnot. now apply list_elem_of_In.
  - intros Hlen e He Hbe. apply list_elem_of_In. rewrite (Hall Hlen).
    apply list_elem_of_filter. split; [exact Hbe|now apply list_elem_of_In].
Qed.

(** The two events of the sample booking. *)
Lemma analytics_handler_lists_newest_first_witness :
  exists events,
    analyticsOf (bind "V1StGXR8_Z5j" req0) store0
    = (Json 200 (Analytics (mkAnalyticsView (Booking.bookingId booking0)
                              (Booking.accessCount booking0)
                              (Booking.lastAccessedAt booking0)
                              (map event_view events))), store0)
    /\ (length events <= 50)%nat.
Proof.
  destruct (analytics_handler_lists_newest_first "V1StGXR8_Z5j" req0 store0 booking0)
    as (events & E & _ & Hl & _); [discriminate|reflexivity|].
  exists events. split; [exact E|exact Hl].
Defined.

(** The track handler answers 200 only when the insert went through. *)
Lemma track_answered tok body nowEvent evId req s b d :
  tok <> "" ->
  findUnique Booking.magicLinkId tok s = Some b ->
  (track body nowEvent evId (bind tok req) s).1 = Json 200 d ->
  Column.varchar 100 (or_default (event body) "interaction") = true.
Proof.
  intros Hne Hb. unfold track, bind. rewrite (bound_param _ _ _ Hne), Hb.
  unfold createAnalytics. cbn [BookingAnalytics.eventType].
  now destruct (Column.varchar 100 (or_default (event body) "interaction")).
Qed.

(** X19: an event that the handler of POST /:magicLinkId/track, reached
    with a known token, answers with 200 leaves the bookings as they were
    and, while the booking has fewer than 50 analytics rows, shows up in
    the listing of the analytics handler under its event type and the
    instant of the insert; the listing then has one row more than the
    booking had. An event given no name is listed as "interaction". *)
Theorem tracked_event_is_listed (tok : string) (body : TrackEventRequest)
    (nowEvent : Z) (evId : string) (req : Request) (s : Store) (b : Booking.t)
    (d : Body) :
  tok <> "" ->
  findUnique Booking.magicLinkId tok s = Some b ->
  (length (filter (fun e => BookingAnalytics.bookingId e = Booking.id b)
             (analytics s)) < 50)%nat ->
  (track body nowEvent evId (bind tok req) s).1 = Json 200 d ->
  exists events,
    bookings (track body nowEvent evId (bind tok req) s).2 = bookings s
    /\ analyticsOf (bind tok req) (track body nowEvent evId (bind tok req) s).2
       = (Json 200 (Analytics (mkAnalyticsView (Booking.bookingId b)
                                 (Booking.accessCount b) (Booking.lastAccessedAt b)
                                 events)),
          (track body nowEvent evId (bind tok req) s).2)
    /\ (exists e, In e events
                  /\ e_eventType e = or_default (event body) "interaction"
                  /\ e_timestamp e = nowEvent)
    /\ length events
       = S (length (filter (fun e => BookingAnalytics.bookingId e = Booking.id b)
                      (analytics s))).
Proof.
  intros Hne Hb Hlen H200.
  rewrite (track_known tok body nowEvent evId req s b Hne Hb
             (track_answered _ _ _ _ _ _ _ _ Hne Hb H200)).
  cbn [snd bookings].
  set (row := BookingAnalytics.mk evId (Booking.id b)
                (or_default (event body) "interaction")
                (or_else (userAgent body) (or_else (headers req !! "user-agent") None))
                (or_else (ipAddress body) (or_else (ip req) None)) nowEvent).
  set (s' := mkStore (bookings s) (analytics s ++ [row])%list).
  assert (Hb' : findUnique Booking.magicLinkId tok s' = Some b) by exact Hb.
  exists (map event_view (includeAnalytics (Booking.id b) s')).
  destruct (includeAnalytics_spec (Booking.id b) s') as (_ & _ & _ & _ & Hall).
  assert (Hmine : filter (fun e => BookingAnalytics.bookingId e = Booking.id b)
                    (analytics s')
                  = (filter (fun e => BookingAnalytics.bookingId e = Booking.id b)
                       (analytics s) ++ [row])%list).
  { subst s'. cbn [analytics]. rewrite filter_app.
    rewrite (filter_cons_True _ row []) by reflexivity. now rewrite filter_nil. }
  rewrite Hmine in Hall.
  assert (Hperm := Hall ltac:(rewrite length_app; simpl; lia)).
  split; [reflexivity|]. split; [|split].
  - unfold analyticsOf, bind. now rewrite (bound_param _ _ _ Hne), Hb'.
  - exists (event_view row). split; [|split; reflexivity].
    apply in_map. apply list_elem_of_In. rewrite Hperm.
    apply elem_of_app. right. apply list_elem_of_singleton. reflexivity.
  - rewrite length_map, Hperm, length_app. simpl. lia.
Qed.

(** One more event for the sample booking, which has two. *)
Lemma tracked_event_is_listed_witness :
  exists events,
    bookings (track (mkTrack None None None) 2000000 "e-3"
                (bind "V1StGXR8_Z5j" req0) store0).2 = bookings store0
    /\ (exists e, In e events /\ e_eventType e = "interaction"
                  /\ e_timestamp e = 2000000)
    /\ length events = 3%nat.
Proof.
  destruct (tracked_event_is_listed "V1StGXR8_Z5j" (mkTrack None None None) 2000000
              "e-3" req0 store0 booking0 (Tracked "Event tracked successfully."))
    as (events & Hb & _ & Hin & Hl);
    [discriminate|reflexivity|vm_compute; lia|reflexivity|].
  exists events. split; [exact Hb|]. split; [exact Hin|exact Hl].
Defined.



End ListingMore.

(** ** The expiry flag of GET /:id *)

Section ExpiryFlag.
Import Prisma BookingRoutes.

(** X21: GET /:id answers a known id with the booking and an [isExpired]
    flag that is [isMagicLinkExpired] of the stored expiration at the
    clock of the request, and never writes; GET /magic/:magicLinkId answers
    410 for the token of that booking at the same clock exactly when that
    flag is true. *)
Theorem isExpired_flag_agrees_with_gate (id tok : string) (now nowTouch : Z)
    (req : Request) (s : Store) (b : Booking.t) :
  id <> "" -> tok <> "" ->
  findUnique Booking.id id s = Some b ->
  findUnique Booking.magicLinkId tok s = Some b ->
  GET_id id now req s
  = (Json 200 (Details (view b (Some (MagicLink.isMagicLinkExpired
                                        (Booking.magicLinkExpiresAt b) now)))), s)
  /\ ((GET_magic tok now nowTouch req s).1
      = Json 410 (Failure "Magic link expired"
                    "This magic link has expired and is no longer valid.")
      <-> MagicLink.isMagicLinkExpired (Booking.magicLinkExpiresAt b) now = true).
Proof.
  intros Hid Htok Hb Ht. split.
  - unfold GET_id, getById. now rewrite (bound_param _ _ _ Hid), Hb.
  - unfold GET_magic, getByMagicLink. rewrite (bound_param _ _ _ Htok), Ht.
    change (past_expiry b now)
      with (MagicLink.isMagicLinkExpired (Booking.magicLinkExpiresAt b) now).
    destruct (MagicLink.isMagicLinkExpired (Booking.magicLinkExpiresAt b) now).
    + tauto.
    + rewrite update_out.
      destruct (findUnique Booking.id (Booking.id b) s) as [b0|];
        [destruct (access_fits (data_access nowTouch b0))|]; simpl;
        split; discriminate.
Qed.

(** The sample booking, one second after its expiration. *)
Lemma isExpired_flag_agrees_with_gate_witness :
  GET_id (Booking.id booking0) 4601000 req0 store0
  = (Json 200 (Details (view booking0 (Some true))), store0).
Proof.
  apply (proj1 (isExpired_flag_agrees_with_gate (Booking.id booking0) "V1StGXR8_Z5j"
                  4601000 4601001 req0 store0 booking0
                  ltac:(discriminate) ltac:(discriminate) eq_refl eq_refl)).
Defined.

End ExpiryFlag.

Section ValidatorWitness.
Import Validation.

(** The empty body [{}]: rejected, with the one message about the missing
    status. *)
Lemma validatePaymentStatusUpdate_accepts_iff_witness :
  validatePaymentStatusUpdate ∅
  = Respond (Json 400 (Invalid "Validation failed"
                         "Please correct the following errors:"
                         ["paymentStatus is required and must be a string"])).
Proof.
  assert (H : validatePaymentStatusUpdate ∅ <> Next) by discriminate.
  exact (proj2 (validatePaymentStatusUpdate_accepts_iff ∅) H).
Defined.

End ValidatorWitness.
